(** * livingpark_utils.dataset.ppmi: a shallow embedding

    The module under study is [src/livingpark_utils/dataset/ppmi.py].  It
    offers four operations: [cohort_id], [disease_duration] (with its local
    helper [abs_month_diff]), [clean_protocol_description] and
    [find_nifti_file_in_cache].

    The embedding keeps the source's names.  The parts of the Python run time
    and of [dateutil] that the four functions call are written out in the
    modules [Py] and [Dateutil]; the date parser and the file system are
    collaborators and appear as section variables. *)

From Stdlib Require Import ZArith Ascii String List Lia Bool.
From stdpp Require Import base tactics option list sorting gmap strings pretty.

Local Open Scope string_scope.
Local Open Scope Z_scope.

(** ** Python built-ins used by the module *)

Module Py.

(** Strings are sequences of code points; the embedding covers the code
    points below 256, one [ascii] each. *)

Definition chr_minus : ascii := "-"%char.
Definition chr_underscore : ascii := "_"%char.

(** [s.replace(old, new)] for one-character [old] and [new]. *)
Fixpoint replace (old new : ascii) (s : string) : string :=
  match s with
  | EmptyString => EmptyString
  | String c s' =>
      String (if Ascii.eqb c old then new else c) (replace old new s')
  end.

(** [str(n)] for an integer: decimal digits, a leading minus sign for a
    negative number. *)
Definition str (n : Z) : string := pretty n.

(** [sorted(xs)] on integers: the ascending rearrangement of [xs]. *)
Definition sorted (xs : list Z) : list Z := merge_sort Z.le xs.

(** *** [hash] on integers and on tuples of integers (CPython 3.8 and later,
    64-bit build) *)

Definition PyHASH_MODULUS : Z := 2 ^ 61 - 1.

(** [hash(n)] for an [int]: the sign of [n] times [|n|] reduced modulo
    [2^61 - 1], with [-1] (the error value of the C API) replaced by [-2]. *)
Definition hash_int (n : Z) : Z :=
  let r := Z.rem n PyHASH_MODULUS in
  if r =? -1 then -2 else r.

Definition uhash (x : Z) : Z := x mod 2 ^ 64.

(** The signed reading of an unsigned 64-bit word ([Py_hash_t]). *)
Definition shash (x : Z) : Z := if x <? 2 ^ 63 then x else x - 2 ^ 64.

Definition XXPRIME_1 : Z := 11400714785074694791.
Definition XXPRIME_2 : Z := 14029467366897019727.
Definition XXPRIME_5 : Z := 2870177450012600261.

Definition XXROTATE (x : Z) : Z :=
  uhash (Z.lor (Z.shiftl x 31) (Z.shiftr x 33)).

Definition tuplehash_step (acc item : Z) : Z :=
  let lane := uhash (hash_int item) in
  let acc := uhash (acc + lane * XXPRIME_2) in
  let acc := XXROTATE acc in
  uhash (acc * XXPRIME_1).

(** [hash(t)] for a tuple [t] of integers ([tuplehash] of
    [Objects/tupleobject.c]). *)
Definition hash_tuple (v : list Z) : Z :=
  let acc := fold_left tuplehash_step v XXPRIME_5 in
  let acc :=
    uhash (acc + Z.lxor (Z.of_nat (length v)) (Z.lxor XXPRIME_5 3527539)) in
  if acc =? 2 ^ 64 - 1 then 1546275796 else shash acc.

(** *** [int(s)] on a string

    Surrounding white space is not considered (the strings of interest have
    none): an optional sign, then decimal digits, where single underscores
    may separate digits.  [None] stands for [ValueError]. *)

Definition digit_of (c : ascii) : option Z :=
  let n := Z.of_nat (nat_of_ascii c) in
  if (48 <=? n) && (n <=? 57) then Some (n - 48) else None.

(** [after_digit] records whether the previous character was a digit: an
    underscore is accepted only there, and the literal may not end on one. *)
Fixpoint int_digits (acc : Z) (after_digit : bool) (s : string) : option Z :=
  match s with
  | EmptyString => if after_digit then Some acc else None
  | String c s' =>
      match digit_of c with
      | Some d => int_digits (acc * 10 + d) true s'
      | None =>
          if Ascii.eqb c chr_underscore && after_digit
          then int_digits acc false s'
          else None
      end
  end.

Definition int (s : string) : option Z :=
  match s with
  | String "-" s' => Z.opp <$> int_digits 0 false s'
  | String "+" s' => int_digits 0 false s'
  | _ => int_digits 0 false s
  end.

End Py.

(** ** [cohort_id]

    [cohort] is the ['PATNO'] column of the data frame, in row order. *)
Definition cohort_id (cohort : list Z) : string :=
  Py.replace Py.chr_minus Py.chr_underscore
    (Py.str (Py.hash_tuple (Py.sorted cohort))).

(** ** [clean_protocol_description] *)

Module Re.

(** The class [\s] of a [str] pattern, on the code points below 256. *)
Definition is_space (c : ascii) : bool :=
  let n := Z.of_nat (nat_of_ascii c) in
  ((9 <=? n) && (n <=? 13)) || ((28 <=? n) && (n <=? 32))
  || (n =? 133) || (n =? 160).

(** The class [[\s()/-]]. *)
Definition in_class (c : ascii) : bool :=
  is_space c || Ascii.eqb c "("%char || Ascii.eqb c ")"%char
  || Ascii.eqb c "/"%char || Ascii.eqb c "-"%char.

(** [re.sub(r"[\s()/-]", "_", s)]: every character of the class becomes an
    underscore. *)
Fixpoint sub_class (s : string) : string :=
  match s with
  | EmptyString => EmptyString
  | String c s' =>
      String (if in_class c then Py.chr_underscore else c) (sub_class s')
  end.

Definition starts_with (ch : ascii) (s : string) : bool :=
  match s with
  | String c _ => Ascii.eqb c ch
  | EmptyString => false
  end.

(** [re.sub(r"_+", "_", s)]: every maximal run of underscores becomes one
    underscore, so an underscore is dropped exactly when another follows. *)
Fixpoint sub_runs (s : string) : string :=
  match s with
  | EmptyString => EmptyString
  | String c s' =>
      if Ascii.eqb c Py.chr_underscore && starts_with Py.chr_underscore s'
      then sub_runs s'
      else String c (sub_runs s')
  end.

End Re.

Module Str.

(** [s.lstrip(ch)] and [s.rstrip(ch)] for a one-character [ch]. *)
Fixpoint lstrip (ch : ascii) (s : string) : string :=
  match s with
  | EmptyString => EmptyString
  | String c s' => if Ascii.eqb c ch then lstrip ch s' else s
  end.

Definition is_empty (s : string) : bool :=
  match s with EmptyString => true | String _ _ => false end.

Fixpoint rstrip (ch : ascii) (s : string) : string :=
  match s with
  | EmptyString => EmptyString
  | String c s' =>
      let r := rstrip ch s' in
      if Ascii.eqb c ch && is_empty r then EmptyString else String c r
  end.

(** [s.strip(ch)]. *)
Definition strip (ch : ascii) (s : string) : string :=
  rstrip ch (lstrip ch s).

End Str.

Definition clean_protocol_description (desc : string) : string :=
  Str.strip Py.chr_underscore (Re.sub_runs (Re.sub_class desc)).

(** ** [find_nifti_file_in_cache] *)

Module Os.

Definition sep : ascii := "/"%char.

Fixpoint ends_with (ch : ascii) (s : string) : bool :=
  match s with
  | EmptyString => false
  | String c EmptyString => Ascii.eqb c ch
  | String _ s' => ends_with ch s'
  end.

(** One step of [posixpath.join]: an absolute component replaces what was
    joined so far; otherwise it is appended, after a separator unless the
    path is empty or already ends with one. *)
Definition join2 (path b : string) : string :=
  if Re.starts_with sep b then b
  else if Str.is_empty path || ends_with sep path then path ++ b
  else path ++ String sep b.

(** [os.path.join(a, *p)]. *)
Definition join (a : string) (p : list string) : string :=
  fold_left join2 p a.

End Os.

(** What the two [logging.warning] calls report.  The record keeps the
    values interpolated into the message, in the order of the message. *)
Inductive diagnostic : Type :=
  | MoreThanOneMatch (expression subject_id event_id protocol : string)
  | NoMatch (expression subject_id event_id protocol : string).

Section Cache.

(** [glob.glob]: the paths of the file system that match a pattern. *)
Variable glob : string → list string.

Definition expression_of
    (subject_id event_id protocol_description cache_dir base_dir : string)
    : string :=
  Os.join cache_dir
    [ base_dir;
      "sub-" ++ subject_id;
      "ses-" ++ event_id;
      "anat";
      "PPMI_*" ++ clean_protocol_description protocol_description
        ++ "_br_raw_*.nii" ].

(** The result is the returned string together with the warnings logged
    by the call. *)
Definition find_nifti_file_in_cache
    (subject_id event_id protocol_description cache_dir base_dir : string)
    : string * list diagnostic :=
  let expression :=
    expression_of subject_id event_id protocol_description
      cache_dir base_dir in
  let files := glob expression in
  if (1 <? length files)%nat then
    ("", [MoreThanOneMatch expression subject_id event_id
            (clean_protocol_description protocol_description)])
  else if (length files =? 1)%nat then
    (default "" (head files), [])
  else
    ("", [NoMatch expression subject_id event_id
            (clean_protocol_description protocol_description)]).

(** The search announced by the docstring of the source: "If not found,
    search for nifti file matching [subject_id] and [event_id] only, and
    return it if a single file is found."  Written after the docstring, for
    comparison with the function above. *)
Definition documented_fallback
    (subject_id event_id cache_dir base_dir : string) : list string :=
  glob (Os.join cache_dir
          [ base_dir; "sub-" ++ subject_id; "ses-" ++ event_id; "anat";
            "*.nii" ]).

End Cache.

(** A file system given by the list of its file paths.  [wild_match]
    covers patterns built from literal characters, [*] and [?]; neither
    wildcard crosses a separator.  Bracket classes are outside this
    fragment. *)
Module Fs.

Fixpoint wild_match (p : string) : string → bool :=
  match p with
  | EmptyString => Str.is_empty
  | String pc p' =>
      if Ascii.eqb pc "*"%char then
        fix star (s : string) : bool :=
          wild_match p' s
          || match s with
             | EmptyString => false
             | String c s' => negb (Ascii.eqb c Os.sep) && star s'
             end
      else if Ascii.eqb pc "?"%char then
        fun s =>
          match s with
          | EmptyString => false
          | String c s' => negb (Ascii.eqb c Os.sep) && wild_match p' s'
          end
      else
        fun s =>
          match s with
          | EmptyString => false
          | String c s' => Ascii.eqb c pc && wild_match p' s'
          end
  end.

Definition glob (fs : list string) (pattern : string) : list string :=
  List.filter (wild_match pattern) fs.

End Fs.

Definition sample_fs : list string :=
  [ ".cache/inputs/sub-3001/ses-BL/anat/PPMI_3001_MPRAGE_br_raw_2011.nii";
    ".cache/inputs/sub-3002/ses-BL/anat/PPMI_3002_T2_br_raw_2011.nii";
    ".cache/inputs/sub-3003/ses-BL/anat/PPMI_3003_MPRAGE_br_raw_2011.nii";
    ".cache/inputs/sub-3003/ses-BL/anat/PPMI_3003_MPRAGE_br_raw_2012.nii" ].

(** ** Dates: [datetime.datetime] and [dateutil.relativedelta] *)

Module Dateutil.

(** A naive [datetime.datetime]. *)
Record datetime : Type := mk_datetime {
  year : Z;
  month : Z;
  day : Z;
  hour : Z;
  minute : Z;
  second : Z;
  microsecond : Z
}.

(** [calendar.isleap] and [calendar.monthrange(year, month)[1]]. *)
Definition isleap (y : Z) : bool :=
  (y mod 4 =? 0) && (negb (y mod 100 =? 0) || (y mod 400 =? 0)).

Definition mdays (m : Z) : Z :=
  if m =? 2 then 28
  else if (m =? 4) || (m =? 6) || (m =? 9) || (m =? 11) then 30
  else 31.

Definition monthrange (y m : Z) : Z :=
  mdays m + (if (m =? 2) && isleap y then 1 else 0).

(** The values a [datetime] object can hold. *)
Definition valid (d : datetime) : Prop :=
  1 <= year d <= 9999 ∧ 1 <= month d <= 12
  ∧ 1 <= day d <= monthrange (year d) (month d)
  ∧ 0 <= hour d < 24 ∧ 0 <= minute d < 60 ∧ 0 <= second d < 60
  ∧ 0 <= microsecond d < 1000000.

Definition validb (d : datetime) : bool :=
  (1 <=? year d) && (year d <=? 9999) && (1 <=? month d) && (month d <=? 12)
  && (1 <=? day d) && (day d <=? monthrange (year d) (month d))
  && (0 <=? hour d) && (hour d <? 24) && (0 <=? minute d) && (minute d <? 60)
  && (0 <=? second d) && (second d <? 60)
  && (0 <=? microsecond d) && (microsecond d <? 1000000).

(** Comparison of two [datetime]s: field by field, most significant
    first. *)
Definition and_then (c k : comparison) : comparison :=
  match c with Eq => k | _ => c end.

Definition compare_clock (a b : datetime) : comparison :=
  and_then (day a ?= day b)
    (and_then (hour a ?= hour b)
       (and_then (minute a ?= minute b)
          (and_then (second a ?= second b)
             (microsecond a ?= microsecond b)))).

Definition compare (a b : datetime) : comparison :=
  and_then (year a ?= year b)
    (and_then (month a ?= month b) (compare_clock a b)).

Definition lt (a b : datetime) : bool :=
  match compare a b with Lt => true | _ => false end.

Definition gt (a b : datetime) : bool :=
  match compare a b with Gt => true | _ => false end.

(** The fields of a [relativedelta] that the module reads. *)
Record delta : Type := mk_delta { years : Z; months : Z }.

(** [_sign]: [int(copysign(1, x))]. *)
Definition sign (x : Z) : Z := if x <? 0 then -1 else 1.

(** [relativedelta._set_months]. *)
Definition set_months (m : Z) : delta :=
  if 11 <? Z.abs m then
    let s := sign m in
    {| years := (m * s) / 12 * s; months := (m * s) mod 12 * s |}
  else {| years := 0; months := m |}.

(** [relativedelta.__radd__] for a delta of years and months: move the
    year and month, then cut the day down to the length of the month
    reached. *)
Definition radd (r : delta) (other : datetime) : datetime :=
  let y := year other + years r in
  let m := month other in
  let '(y, m) :=
    if months r =? 0 then (y, m)
    else
      let m := m + months r in
      if 12 <? m then (y + 1, m - 12)
      else if m <? 1 then (y - 1, m + 12)
      else (y, m) in
  let d := Z.min (monthrange y m) (day other) in
  {| year := y; month := m; day := d;
     hour := hour other; minute := minute other; second := second other;
     microsecond := microsecond other |}.

(** The loop [while compare(dt1, dtm): months += increment; ...] of
    [relativedelta.__init__]; [None] when [fuel] iterations did not end
    it. *)
Fixpoint adjust (fuel : nat) (cmp : datetime → datetime → bool)
    (increment : Z) (dt1 dt2 : datetime) (m : Z) : option Z :=
  if cmp dt1 (radd (set_months m) dt2) then
    match fuel with
    | O => None
    | S fuel' => adjust fuel' cmp increment dt1 dt2 (m + increment)
    end
  else Some m.

(** [relativedelta(dt1, dt2)], years and months. *)
Definition relativedelta_in (fuel : nat) (dt1 dt2 : datetime)
    : option delta :=
  let m := (year dt1 - year dt2) * 12 + (month dt1 - month dt2) in
  set_months <$>
    (if lt dt1 dt2 then adjust fuel gt 1 dt1 dt2 m
     else adjust fuel lt (-1) dt1 dt2 m).

(** Two iterations are more than the loop takes on [datetime] values (see
    [relativedelta_in_fuel]). *)
Definition relativedelta (dt1 dt2 : datetime) : option delta :=
  relativedelta_in 2 dt1 dt2.

(** [dateutil.parser.parse] cut down to the strings [YYYY-MM-DD]: a
    calendar date at midnight.  The strings outside this form are all
    rejected here. *)
Definition num2 (a b : ascii) : option Z :=
  x ← Py.digit_of a; y ← Py.digit_of b; Some (x * 10 + y).

Definition parse_ymd (s : string) : option datetime :=
  match s with
  | String y1 (String y2 (String y3 (String y4 (String "-"
      (String m1 (String m2 (String "-"
        (String d1 (String d2 EmptyString))))))))) =>
      yh ← num2 y1 y2; yl ← num2 y3 y4;
      m ← num2 m1 m2; d ← num2 d1 d2;
      let dt := mk_datetime (yh * 100 + yl) m d 0 0 0 0 in
      if validb dt then Some dt else None
  | _ => None
  end.

End Dateutil.

Import Dateutil.

(** ** [disease_duration] *)

(** [abs_month_diff], the local function of [disease_duration]. *)
Definition abs_month_diff (x y : datetime) : option Z :=
  delta ← relativedelta x y;
  Some (Z.abs (years delta * 12) + Z.abs (months delta)).

(** A row of ["PD_Diagnosis_History.csv"] and of
    ["MDS-UPDRS_Part_III.csv"], cut to the columns read.  A date cell is
    [None] where the table holds NaN. *)
Record diagnosis_row : Type := mk_diagnosis {
  dx_PATNO : Z;
  dx_EVENT_ID : string;
  dx_PDDXDT : option string
}.

Record exam_row : Type := mk_exam {
  ex_PATNO : Z;
  ex_EVENT_ID : string;
  ex_INFODT : option string
}.

(** A row of the data frame [pdxdur] after the two column assignments. *)
Record duration_row : Type := mk_duration {
  PATNO : Z;
  EVENT_ID : string;
  INFODT : option string;
  PDDXDT : option string;
  PDXDUR : option Z
}.

(** The returned data frame: all five columns, or, after
    [drop(labels=["INFODT", "PDDXDT"])], three of them. *)
Inductive frame : Type :=
  | Full (rows : list duration_row)
  | Minimal (rows : list (Z * string * option Z)).

Definition minimal_row (r : duration_row) : Z * string * option Z :=
  (PATNO r, EVENT_ID r, PDXDUR r).

(** The columns common to both shapes. *)
Definition frame_rows (f : frame) : list (Z * string * option Z) :=
  match f with
  | Full rows => minimal_row <$> rows
  | Minimal rows => rows
  end.

Definition is_screening (r : diagnosis_row) : bool :=
  String.eqb (dx_EVENT_ID r) "SC" && bool_decide (is_Some (dx_PDDXDT r)).

(** [dict(zip(keys, values))]: later pairs overwrite earlier ones. *)
Definition dict_of (rows : list diagnosis_row) : gmap Z string :=
  fold_left
    (fun m r =>
       match dx_PDDXDT r with
       | Some v => <[dx_PATNO r := v]> m
       | None => m
       end)
    rows ∅.

(** The mapping from patient id to screening diagnosis date. *)
Definition PDDXDT_map (diagnosis : list diagnosis_row) : gmap Z string :=
  dict_of (List.filter is_screening diagnosis).

Section Duration.

(** [dateutil.parser.parse]; [None] stands for the exception it raises. *)
Variable parse : string → option datetime.

(** [parse] applied to a cell: NaN is not a string and is rejected. *)
Definition parse_cell (c : option string) : option datetime :=
  s ← c; parse s.

(** The function given to [pdxdur.apply(..., axis=1)].  The test
    [row["PDDXDT"] is not np.nan] is the test for a missing cell; the exam
    date is parsed first.  This reading is the one of a column that holds
    the [np.nan] object, as [Series.map] gives when the mapping is not
    empty; the general properties below that rest on the [None] branch
    are stated for a frame that the call has returned. *)
Definition row_duration (infodt pddxdt : option string)
    : option (option Z) :=
  match pddxdt with
  | Some _ =>
      x ← parse_cell infodt;
      y ← parse_cell pddxdt;
      n ← abs_month_diff x y;
      Some (Some n)
  | None => Some None
  end.

Definition join_row (mapping : gmap Z string) (r : exam_row)
    : option duration_row :=
  let pddxdt := mapping !! ex_PATNO r in
  dur ← row_duration (ex_INFODT r) pddxdt;
  Some {| PATNO := ex_PATNO r; EVENT_ID := ex_EVENT_ID r;
          INFODT := ex_INFODT r; PDDXDT := pddxdt; PDXDUR := dur |}.

(** [disease_duration] on the two tables as read from the study
    directory.  [None] stands for an exception raised during the call.
    Only the exceptions of the row function are modelled: what pandas does
    with the result of [apply] on a table without rows is not.  The general
    properties below are about a frame that the call has returned or about
    a call that fails; the examples use tables with rows and a mapping
    that is not empty. *)
Definition disease_duration (diagnosis : list diagnosis_row)
    (exam : list exam_row) (_minimal : bool) : option frame :=
  pdxdur ← mapM (join_row (PDDXDT_map diagnosis)) exam;
  Some (if _minimal then Minimal (minimal_row <$> pdxdur) else Full pdxdur).

End Duration.

(** [d] moved to the month [m] of the year [y], its day cut down to the
    length of that month. *)
Definition moved_to (y m : Z) (d : datetime) : datetime :=
  {| year := y; month := m; day := Z.min (monthrange y m) (day d);
     hour := hour d; minute := minute d; second := second d;
     microsecond := microsecond d |}.

(** The number of the month of [d], counted from the year 0. *)
Definition month_index (d : datetime) : Z := year d * 12 + month d.

(** A calendar date at midnight. *)
Definition date (y m d : Z) : datetime := mk_datetime y m d 0 0 0 0.

(** The correction that the loop of [relativedelta] applies to the
    difference of the month numbers (see [relativedelta_in_correction]). *)
Definition correction (x y : datetime) : Z :=
  let moved := moved_to (year x) (month x) y in
  if lt x y then (if gt x moved then 1 else 0)
  else (if lt x moved then -1 else 0).

(** Two small tables for the examples: patient 1 has a screening date,
    patient 2 a screening row without a date, patient 3 a date at another
    visit only. *)
Definition sample_diagnosis : list diagnosis_row :=
  [ mk_diagnosis 1 "SC" (Some "2015-01-10");
    mk_diagnosis 2 "SC" None;
    mk_diagnosis 3 "V04" (Some "2014-07-01") ].

Definition sample_exam : list exam_row :=
  [ mk_exam 1 "BL" (Some "2015-03-05");
    mk_exam 2 "BL" (Some "2015-03-05");
    mk_exam 3 "BL" (Some "no date");
    mk_exam 1 "V04" (Some "2016-01-10") ].

(** Every character of [s] satisfies [P]. *)
Fixpoint string_Forall (P : ascii → Prop) (s : string) : Prop :=
  match s with
  | EmptyString => True
  | String c s' => P c ∧ string_Forall P s'
  end.

(** No underscore of [s] is followed by another. *)
Fixpoint no_runs (s : string) : Prop :=
  match s with
  | EmptyString => True
  | String c s' =>
      Ascii.eqb c Py.chr_underscore && Re.starts_with Py.chr_underscore s'
        = false
      ∧ no_runs s'
  end.

(** * Properties *)

(** ** Identifier generator *)

Lemma replace_not_in (old new : ascii) (s : string) :
  old ≠ new → ¬ In old (list_ascii_of_string (Py.replace old new s)).
Proof.
  intros Hne. induction s as [|c s IH]; simpl; [tauto|].
  intros [Hc|Hin]; [|tauto].
  destruct (Ascii.eqb_spec c old); congruence.
Qed.

(** The identifier never holds a minus sign. *)
Lemma cohort_id_no_minus (cohort : list Z) :
  ¬ In Py.chr_minus (list_ascii_of_string (cohort_id cohort)).
Proof. apply replace_not_in. discriminate. Qed.

Lemma sorted_Permutation (l1 l2 : list Z) :
  l1 ≡ₚ l2 → Py.sorted l1 = Py.sorted l2.
Proof.
  intros Hp. unfold Py.sorted.
  apply (Sorted_unique Z.le).
  - apply Sorted_merge_sort; apply _.
  - apply Sorted_merge_sort; apply _.
  - by rewrite !merge_sort_Permutation.
Qed.

(** C4, as the code has it: the identifier depends on the ids up to their
    order only; two inputs that are permutations of each other get the same
    identifier. *)
Theorem cohort_id_permutation (l1 l2 : list Z) :
  l1 ≡ₚ l2 → cohort_id l1 = cohort_id l2.
Proof.
  intros Hp. unfold cohort_id. by rewrite (sorted_Permutation l1 l2).
Qed.

Lemma cohort_id_permutation_witness :
  [3; 1; 2] ≡ₚ [1; 2; 3] ∧ cohort_id [3; 1; 2] = cohort_id [1; 2; 3].
Proof.
  assert (Hp : [3; 1; 2] ≡ₚ [1; 2; 3]).
  { apply (Permutation_app_comm [3] [1; 2]). }
  split; [exact Hp | exact (cohort_id_permutation _ _ Hp)].
Defined.

(** C4, as claimed, fails: [1; 1; 2] and [1; 2] hold the same set of ids
    and get different identifiers, because [sorted] keeps duplicates. *)
Lemma cohort_id_duplicates_differ :
  (∀ p : Z, p ∈ [1; 1; 2] ↔ p ∈ [1; 2])
  ∧ cohort_id [1; 1; 2] = "_3541238842066255281"
  ∧ cohort_id [1; 2] = "_3550055125485641917"
  ∧ cohort_id [1; 1; 2] ≠ cohort_id [1; 2].
Proof.
  split; [intros p; rewrite !elem_of_cons; tauto|].
  split; [vm_compute; reflexivity|].
  split; [vm_compute; reflexivity|].
  vm_compute. discriminate.
Qed.

(** C5 at the cohort [1; 2; 3]: the hash is not negative, the identifier is
    its decimal rendering, and [int] reads the number back. *)
Theorem cohort_id_parses_as_int :
  Py.hash_tuple (Py.sorted [1; 2; 3]) = 529344067295497451
  ∧ cohort_id [1; 2; 3] = "529344067295497451"
  ∧ Py.int (cohort_id [1; 2; 3]) = Some 529344067295497451.
Proof. repeat split; vm_compute; reflexivity. Qed.

(** Where the hash is negative the substitution does what the docstring
    says: the identifier starts with an underscore and [int] rejects it. *)
Lemma cohort_id_negative_hash (cohort : list Z) :
  Py.hash_tuple (Py.sorted cohort) < 0 → Py.int (cohort_id cohort) = None.
Proof.
  unfold cohort_id, Py.str. intros Hneg.
  destruct (Py.hash_tuple (Py.sorted cohort)) as [|p|p]; [lia..|].
  reflexivity.
Qed.

(** ** Protocol name canonicalizer *)

Section Canonicalizer.

Local Abbreviation us := Py.chr_underscore.
Local Abbreviation plain := (fun c => Re.in_class c = false).

Lemma sub_class_plain (s : string) : string_Forall plain (Re.sub_class s).
Proof.
  induction s as [|c s IH]; simpl; [done|]. split; [|done].
  destruct (Re.in_class c) eqn:Hc; [reflexivity | exact Hc].
Qed.

Lemma sub_class_id (s : string) : string_Forall plain s → Re.sub_class s = s.
Proof.
  induction s as [|c s IH]; simpl; [done|]. intros [Hc Hs].
  by rewrite Hc, IH.
Qed.

Lemma sub_runs_Forall (P : ascii → Prop) (s : string) :
  string_Forall P s → string_Forall P (Re.sub_runs s).
Proof.
  induction s as [|c s IH]; simpl; [done|]. intros [Hc Hs].
  destruct (_ && _); simpl; auto.
Qed.

Lemma lstrip_Forall (P : ascii → Prop) (ch : ascii) (s : string) :
  string_Forall P s → string_Forall P (Str.lstrip ch s).
Proof.
  induction s as [|c s IH]; simpl; [done|]. intros [Hc Hs].
  destruct (Ascii.eqb c ch); simpl; auto.
Qed.

Lemma rstrip_Forall (P : ascii → Prop) (ch : ascii) (s : string) :
  string_Forall P s → string_Forall P (Str.rstrip ch s).
Proof.
  induction s as [|c s IH]; simpl; [done|]. intros [Hc Hs].
  destruct (_ && _); simpl; auto.
Qed.

Lemma starts_with_sub_runs (ch : ascii) (s : string) :
  Re.starts_with ch (Re.sub_runs s) = Re.starts_with ch s.
Proof.
  induction s as [|c s IH]; simpl; [done|].
  destruct (Ascii.eqb c us && Re.starts_with us s) eqn:Hrun; [|done].
  apply andb_prop in Hrun as [Hc Hs]. rewrite IH.
  destruct s as [|c' s]; simpl in *; [discriminate|].
  apply Ascii.eqb_eq in Hc, Hs. congruence.
Qed.

Lemma sub_runs_no_runs (s : string) : no_runs (Re.sub_runs s).
Proof.
  induction s as [|c s IH]; simpl; [done|].
  destruct (Ascii.eqb c us && Re.starts_with us s) eqn:Hrun; [done|].
  simpl. by rewrite starts_with_sub_runs.
Qed.

Lemma sub_runs_id (s : string) : no_runs s → Re.sub_runs s = s.
Proof.
  induction s as [|c s IH]; simpl; [done|]. intros [Hc Hs].
  by rewrite Hc, IH.
Qed.

Lemma lstrip_no_runs (ch : ascii) (s : string) :
  no_runs s → no_runs (Str.lstrip ch s).
Proof.
  induction s as [|c s IH]; simpl; [done|]. intros [Hc Hs].
  destruct (Ascii.eqb c ch); simpl; auto.
Qed.

Lemma starts_with_rstrip (a ch : ascii) (s : string) :
  Re.starts_with a (Str.rstrip ch s) = true → Re.starts_with a s = true.
Proof.
  destruct s as [|c s]; simpl; [done|].
  destruct (_ && _); simpl; [discriminate | done].
Qed.

Lemma rstrip_no_runs (ch : ascii) (s : string) :
  no_runs s → no_runs (Str.rstrip ch s).
Proof.
  induction s as [|c s IH]; simpl; [done|]. intros [Hc Hs].
  destruct (Ascii.eqb c ch && Str.is_empty (Str.rstrip ch s)); simpl; [done|].
  split; [|auto].
  destruct (Ascii.eqb c us); simpl in *; [|done].
  destruct (Re.starts_with us (Str.rstrip ch s)) eqn:Hr; [|done].
  apply starts_with_rstrip in Hr. congruence.
Qed.

Lemma starts_with_lstrip (ch : ascii) (s : string) :
  Re.starts_with ch (Str.lstrip ch s) = false.
Proof.
  induction s as [|c s IH]; simpl; [done|].
  destruct (Ascii.eqb c ch) eqn:Hc; simpl; [done | exact Hc].
Qed.

Lemma lstrip_id (ch : ascii) (s : string) :
  Re.starts_with ch s = false → Str.lstrip ch s = s.
Proof. destruct s as [|c s]; simpl; [done|]. by intros ->. Qed.

Lemma rstrip_rstrip (ch : ascii) (s : string) :
  Str.rstrip ch (Str.rstrip ch s) = Str.rstrip ch s.
Proof.
  induction s as [|c s IH]; simpl; [done|].
  destruct (Ascii.eqb c ch && Str.is_empty (Str.rstrip ch s)) eqn:Hc;
    simpl; [done|].
  by rewrite IH, Hc.
Qed.

Lemma strip_strip (ch : ascii) (s : string) :
  Str.strip ch (Str.strip ch s) = Str.strip ch s.
Proof.
  unfold Str.strip. rewrite (lstrip_id ch (Str.rstrip ch _)).
  - apply rstrip_rstrip.
  - destruct (Re.starts_with ch (Str.rstrip ch (Str.lstrip ch s))) eqn:Hr;
      [|done].
    apply starts_with_rstrip in Hr. by rewrite starts_with_lstrip in Hr.
Qed.

(** The canonical form holds no character of the class and no run of
    underscores. *)
Lemma clean_plain (desc : string) :
  string_Forall plain (clean_protocol_description desc).
Proof.
  unfold clean_protocol_description, Str.strip.
  apply rstrip_Forall, lstrip_Forall, sub_runs_Forall, sub_class_plain.
Qed.

Lemma clean_no_runs (desc : string) :
  no_runs (clean_protocol_description desc).
Proof.
  unfold clean_protocol_description, Str.strip.
  apply rstrip_no_runs, lstrip_no_runs, sub_runs_no_runs.
Qed.

(** C7: [clean_protocol_description] is idempotent. *)
Theorem clean_protocol_description_idempotent (x : string) :
  clean_protocol_description (clean_protocol_description x)
  = clean_protocol_description x.
Proof.
  unfold clean_protocol_description at 1.
  rewrite (sub_class_id _ (clean_plain x)).
  rewrite (sub_runs_id _ (clean_no_runs x)).
  unfold clean_protocol_description. apply strip_strip.
Qed.

End Canonicalizer.

(** The code points below 256 that the first substitution replaces. *)
Example in_class_code_points :
  List.filter (fun n => Re.in_class (ascii_of_nat n)) (seq 0 256)
  = [9; 10; 11; 12; 13; 28; 29; 30; 31; 32; 40; 41; 45; 47; 133; 160]%nat.
Proof. vm_compute. reflexivity. Qed.

Example clean_mprage_grappa :
  clean_protocol_description "MPRAGE GRAPPA" = "MPRAGE_GRAPPA".
Proof. reflexivity. Qed.

Example clean_3d_t1 :
  clean_protocol_description "3D T1 (MPRAGE)" = "3D_T1_MPRAGE".
Proof. reflexivity. Qed.

(** ** Imaging cache resolver *)

Section Resolver.

Context (glob : string → list string).
Context (subject_id event_id protocol_description : string).
Context (cache_dir base_dir : string).

Local Abbreviation expression :=
  (expression_of subject_id event_id protocol_description
     cache_dir base_dir).
Local Abbreviation result :=
  (find_nifti_file_in_cache glob subject_id event_id protocol_description
     cache_dir base_dir).

(** C3: the result is decided by the number of files that match the
    pattern.  One match: its path, nothing logged.  No match, or more than
    one: the empty string and one warning.  The function is total, so no
    case raises. *)
Theorem find_nifti_file_in_cache_by_count :
  (∀ f, glob expression = [f] → result = (f, []))
  ∧ (glob expression = [] →
     result = ("", [NoMatch expression subject_id event_id
                      (clean_protocol_description protocol_description)]))
  ∧ ((1 < length (glob expression))%nat →
     result = ("", [MoreThanOneMatch expression subject_id event_id
                      (clean_protocol_description protocol_description)])).
Proof.
  unfold find_nifti_file_in_cache. repeat split.
  - intros f ->. reflexivity.
  - intros ->. reflexivity.
  - intros Hlen. apply Nat.ltb_lt in Hlen. by rewrite Hlen.
Qed.

(** The returned string is never taken from another search than the one
    for [expression]: with no match there, the result is empty whatever
    else the file system holds. *)
Lemma find_nifti_file_in_cache_no_fallback :
  glob expression = [] → result.1 = "".
Proof. unfold find_nifti_file_in_cache. by intros ->. Qed.

End Resolver.

Lemma find_nifti_file_in_cache_by_count_witness :
  find_nifti_file_in_cache (Fs.glob sample_fs) "3001" "BL" "MPRAGE"
    ".cache" "inputs"
  = (".cache/inputs/sub-3001/ses-BL/anat/PPMI_3001_MPRAGE_br_raw_2011.nii",
     [])
  ∧ find_nifti_file_in_cache (Fs.glob sample_fs) "3004" "BL" "MPRAGE"
      ".cache" "inputs"
    = ("", [NoMatch
              ".cache/inputs/sub-3004/ses-BL/anat/PPMI_*MPRAGE_br_raw_*.nii"
              "3004" "BL" "MPRAGE"])
  ∧ find_nifti_file_in_cache (Fs.glob sample_fs) "3003" "BL" "MPRAGE"
      ".cache" "inputs"
    = ("", [MoreThanOneMatch
              ".cache/inputs/sub-3003/ses-BL/anat/PPMI_*MPRAGE_br_raw_*.nii"
              "3003" "BL" "MPRAGE"]).
Proof.
  split; [|split].
  - apply (proj1 (find_nifti_file_in_cache_by_count (Fs.glob sample_fs)
                    "3001" "BL" "MPRAGE" ".cache" "inputs")).
    vm_compute. reflexivity.
  - apply (proj1 (proj2 (find_nifti_file_in_cache_by_count
                           (Fs.glob sample_fs)
                           "3004" "BL" "MPRAGE" ".cache" "inputs"))).
    vm_compute. reflexivity.
  - apply (proj2 (proj2 (find_nifti_file_in_cache_by_count
                           (Fs.glob sample_fs)
                           "3003" "BL" "MPRAGE" ".cache" "inputs"))).
    vm_compute. lia.
Defined.

(** C2 at a cache that holds one file for subject 3002 at visit BL, of
    another protocol than the one asked for: the search by subject and
    visit alone finds that file, and the function returns the empty
    string. *)
Theorem find_nifti_file_in_cache_skips_fallback :
  documented_fallback (Fs.glob sample_fs) "3002" "BL" ".cache" "inputs"
  = [".cache/inputs/sub-3002/ses-BL/anat/PPMI_3002_T2_br_raw_2011.nii"]
  ∧ find_nifti_file_in_cache (Fs.glob sample_fs) "3002" "BL" "MPRAGE"
      ".cache" "inputs"
    = ("", [NoMatch
              ".cache/inputs/sub-3002/ses-BL/anat/PPMI_*MPRAGE_br_raw_*.nii"
              "3002" "BL" "MPRAGE"]).
Proof. split; vm_compute; reflexivity. Qed.

(** ** Dates *)

Section Dates.

Implicit Types x y d : datetime.

Lemma compare_clock_antisym x y :
  compare_clock y x = CompOpp (compare_clock x y).
Proof.
  unfold compare_clock, and_then.
  rewrite (Z.compare_antisym (day x)), (Z.compare_antisym (hour x)),
    (Z.compare_antisym (minute x)), (Z.compare_antisym (second x)),
    (Z.compare_antisym (microsecond x)).
  destruct (day x ?= day y), (hour x ?= hour y), (minute x ?= minute y),
    (second x ?= second y), (microsecond x ?= microsecond y); reflexivity.
Qed.

(** On valid months the comparison is the one of the month numbers, then
    of the days and clocks. *)
Lemma compare_month_index x y :
  1 <= month x <= 12 → 1 <= month y <= 12 →
  compare x y
  = and_then (month_index x ?= month_index y) (compare_clock x y).
Proof.
  intros Hx Hy. unfold compare, month_index, and_then.
  destruct (Z.compare_spec (year x) (year y)),
    (Z.compare_spec (month x) (month y)),
    (Z.compare_spec (year x * 12 + month x) (year y * 12 + month y));
    try reflexivity; lia.
Qed.

Lemma compare_antisym x y :
  1 <= month x <= 12 → 1 <= month y <= 12 →
  compare y x = CompOpp (compare x y).
Proof.
  intros Hx Hy. rewrite !compare_month_index by done.
  rewrite (Z.compare_antisym (month_index x)), compare_clock_antisym.
  unfold and_then. by destruct (month_index x ?= month_index y).
Qed.

Lemma set_months_sum m :
  years (set_months m) * 12 + months (set_months m) = m
  ∧ -11 <= months (set_months m) <= 11.
Proof.
  unfold set_months, sign.
  destruct (Z.ltb_spec 11 (Z.abs m)); simpl; [|lia].
  destruct (Z.ltb_spec m 0).
  - pose proof (Z.div_mod (m * -1) 12 ltac:(lia)).
    pose proof (Z.mod_pos_bound (m * -1) 12 ltac:(lia)). lia.
  - pose proof (Z.div_mod (m * 1) 12 ltac:(lia)).
    pose proof (Z.mod_pos_bound (m * 1) 12 ltac:(lia)). lia.
Qed.

(** [abs(delta.years * 12) + abs(delta.months)] is the absolute value of
    the number of months given to [_set_months]. *)
Lemma set_months_abs m :
  Z.abs (years (set_months m) * 12) + Z.abs (months (set_months m))
  = Z.abs m.
Proof.
  unfold set_months, sign.
  destruct (Z.ltb_spec 11 (Z.abs m)); simpl; [|lia].
  destruct (Z.ltb_spec m 0).
  - pose proof (Z.div_mod (m * -1) 12 ltac:(lia)).
    pose proof (Z.mod_pos_bound (m * -1) 12 ltac:(lia)).
    assert (0 <= (m * -1) / 12) by (apply Z.div_pos; lia). lia.
  - pose proof (Z.div_mod (m * 1) 12 ltac:(lia)).
    pose proof (Z.mod_pos_bound (m * 1) 12 ltac:(lia)).
    assert (0 <= (m * 1) / 12) by (apply Z.div_pos; lia). lia.
Qed.

(** Adding a delta of [m] months lands in the month whose number is [m]
    more, with the day cut to that month. *)
Lemma radd_set_months m d Y M :
  1 <= month d <= 12 → 1 <= M <= 12 →
  Y * 12 + M = month_index d + m →
  radd (set_months m) d = moved_to Y M d.
Proof.
  intros Hd HM Hidx. unfold month_index in Hidx.
  destruct (set_months_sum m) as [Hsum Hrange].
  unfold radd.
  destruct (set_months m) as [ys ms]; simpl in *.
  assert (Hpair :
    (if ms =? 0 then (year d + ys, month d)
     else if 12 <? month d + ms then (year d + ys + 1, month d + ms - 12)
     else if month d + ms <? 1 then (year d + ys - 1, month d + ms + 12)
     else (year d + ys, month d + ms)) = (Y, M)).
  { destruct (Z.eqb_spec ms 0); [f_equal; lia|].
    destruct (Z.ltb_spec 12 (month d + ms)); [f_equal; lia|].
    destruct (Z.ltb_spec (month d + ms) 1); f_equal; lia. }
  rewrite Hpair. reflexivity.
Qed.

(** Every month number is the one of a year and a month from 1 to 12. *)
Lemma month_index_split k : ∃ Y M, 1 <= M <= 12 ∧ Y * 12 + M = k.
Proof.
  exists ((k - 1) / 12), ((k - 1) mod 12 + 1).
  pose proof (Z.div_mod (k - 1) 12 ltac:(lia)).
  pose proof (Z.mod_pos_bound (k - 1) 12 ltac:(lia)). lia.
Qed.

Lemma compare_other_month x d Y M :
  1 <= month x <= 12 → 1 <= M <= 12 →
  compare x (moved_to Y M d)
  = and_then (month_index x ?= Y * 12 + M) (compare_clock x (moved_to Y M d)).
Proof. intros Hx HM. by rewrite compare_month_index. Qed.

(** What the loop returns: at most one step is taken, so any fuel from 1
    on gives the same months. *)
Lemma relativedelta_in_correction fuel x y :
  1 <= month x <= 12 → 1 <= month y <= 12 →
  relativedelta_in (S fuel) x y
  = Some (set_months (month_index x - month_index y + correction x y)).
Proof.
  intros Hx Hy. unfold relativedelta_in, correction.
  replace ((year x - year y) * 12 + (month x - month y))
    with (month_index x - month_index y) by (unfold month_index; lia).
  set (m := month_index x - month_index y).
  assert (Hdtm : radd (set_months m) y = moved_to (year x) (month x) y).
  { apply radd_set_months; [done..|]. unfold m, month_index. lia. }
  destruct (lt x y); simpl; rewrite Hdtm.
  - destruct (gt x (moved_to (year x) (month x) y));
      [|by rewrite Z.add_0_r].
    destruct (month_index_split (month_index x + 1)) as (Y & M & HM & Hidx).
    assert (Hnext : radd (set_months (m + 1)) y = moved_to Y M y).
    { apply radd_set_months; [done..|]. unfold m. lia. }
    assert (Hgt : gt x (moved_to Y M y) = false).
    { unfold gt. rewrite compare_other_month by done. rewrite Hidx.
      by rewrite (proj2 (Z.compare_lt_iff _ _)) by lia. }
    destruct fuel; simpl; by rewrite Hnext, Hgt.
  - destruct (lt x (moved_to (year x) (month x) y));
      [|by rewrite Z.add_0_r].
    destruct (month_index_split (month_index x - 1)) as (Y & M & HM & Hidx).
    assert (Hprev : radd (set_months (m + -1)) y = moved_to Y M y).
    { apply radd_set_months; [done..|]. unfold m. lia. }
    assert (Hlt : lt x (moved_to Y M y) = false).
    { unfold lt. rewrite compare_other_month by done. rewrite Hidx.
      by rewrite (proj2 (Z.compare_gt_iff _ _)) by lia. }
    destruct fuel; simpl; by rewrite Hprev, Hlt.
Qed.

(** The fuel of [relativedelta] is enough, and more fuel changes
    nothing. *)
Lemma relativedelta_in_fuel fuel x y :
  1 <= month x <= 12 → 1 <= month y <= 12 →
  relativedelta_in (S fuel) x y = relativedelta x y
  ∧ is_Some (relativedelta x y).
Proof.
  intros Hx Hy. unfold relativedelta.
  rewrite !relativedelta_in_correction by done. eauto.
Qed.

(** [abs_month_diff] returns on all dates, and returns the corrected
    difference of the month numbers, without its sign. *)
Lemma abs_month_diff_value x y :
  1 <= month x <= 12 → 1 <= month y <= 12 →
  abs_month_diff x y
  = Some (Z.abs (month_index x - month_index y + correction x y)).
Proof.
  intros Hx Hy. unfold abs_month_diff, relativedelta.
  rewrite relativedelta_in_correction by done. simpl.
  by rewrite set_months_abs.
Qed.

Lemma valid_month d : valid d → 1 <= month d <= 12.
Proof. unfold valid. tauto. Qed.

Lemma validb_valid d : validb d = true → valid d.
Proof.
  unfold validb, valid. rewrite !andb_true_iff.
  rewrite !Z.leb_le, !Z.ltb_lt. tauto.
Qed.

(** A day that exists in the month reached is kept. *)
Lemma compare_clock_moved x y Y M :
  day y <= monthrange Y M →
  compare_clock x (moved_to Y M y) = compare_clock x y.
Proof.
  intros Hday. unfold compare_clock, moved_to; simpl.
  by rewrite Z.min_r.
Qed.

Lemma compare_same_month x y :
  compare x (moved_to (year x) (month x) y)
  = compare_clock x (moved_to (year x) (month x) y).
Proof. unfold compare. simpl. by rewrite !Z.compare_refl. Qed.

End Dates.

(** ** Month difference *)

Section MonthDiff.

Implicit Types x y : datetime.

Lemma correction_same_month x y :
  valid x → valid y → month_index x = month_index y → correction x y = 0.
Proof.
  intros Hx Hy Hidx.
  pose proof (valid_month x Hx). pose proof (valid_month y Hy).
  assert (year x = year y ∧ month x = month y) as [Hyear Hmonth]
    by (unfold month_index in Hidx; lia).
  assert (Hday : day y <= monthrange (year x) (month x)).
  { rewrite Hyear, Hmonth. unfold valid in Hy. tauto. }
  unfold correction, lt, gt.
  rewrite compare_same_month, (compare_clock_moved x y _ _ Hday).
  rewrite compare_month_index by done.
  rewrite Hidx, Z.compare_refl. simpl.
  by destruct (compare_clock x y).
Qed.

Lemma correction_later_month x y :
  1 <= month x <= 12 → 1 <= month y <= 12 →
  month_index y < month_index x →
  correction x y
  = if lt x (moved_to (year x) (month x) y) then -1 else 0.
Proof.
  intros Hx Hy Hidx. unfold correction.
  replace (lt x y) with false; [done|].
  unfold lt. rewrite compare_month_index by done.
  by rewrite (proj2 (Z.compare_gt_iff _ _)) by lia.
Qed.

Lemma correction_earlier_month x y :
  1 <= month x <= 12 → 1 <= month y <= 12 →
  month_index x < month_index y →
  correction x y
  = if gt x (moved_to (year x) (month x) y) then 1 else 0.
Proof.
  intros Hx Hy Hidx. unfold correction.
  replace (lt x y) with true; [done|].
  unfold lt. rewrite compare_month_index by done.
  by rewrite (proj2 (Z.compare_lt_iff _ _)) by lia.
Qed.

(** Where each day exists in the month of the other date, swapping the
    dates flips the sign of the correction. *)
Lemma correction_swap x y :
  1 <= month x <= 12 → 1 <= month y <= 12 →
  day x <= monthrange (year y) (month y) →
  day y <= monthrange (year x) (month x) →
  correction y x = - correction x y.
Proof.
  intros Hx Hy Hdx Hdy. unfold correction, lt, gt.
  rewrite !compare_same_month.
  rewrite (compare_clock_moved x y _ _ Hdy), (compare_clock_moved y x _ _ Hdx).
  rewrite (compare_antisym x y) by done.
  rewrite (compare_clock_antisym x y).
  rewrite (compare_month_index x y) by done.
  unfold and_then.
  destruct (month_index x ?= month_index y), (compare_clock x y);
    reflexivity.
Qed.

(** C8, as the code has it: the month difference of [x] and [y] is the
    one of [y] and [x] whenever the day of each date exists in the month
    of the other, in particular whenever both days are at most 28. *)
Theorem abs_month_diff_symmetric x y :
  valid x → valid y →
  day x <= monthrange (year y) (month y) →
  day y <= monthrange (year x) (month x) →
  abs_month_diff x y = abs_month_diff y x.
Proof.
  intros Hx Hy Hdx Hdy.
  pose proof (valid_month x Hx). pose proof (valid_month y Hy).
  rewrite !abs_month_diff_value by done.
  rewrite (correction_swap x y) by done. f_equal. lia.
Qed.

Lemma abs_month_diff_symmetric_witness :
  valid (date 2015 3 5) ∧ valid (date 2015 1 10)
  ∧ abs_month_diff (date 2015 3 5) (date 2015 1 10)
    = abs_month_diff (date 2015 1 10) (date 2015 3 5).
Proof.
  assert (Hx : valid (date 2015 3 5)) by (apply validb_valid; reflexivity).
  assert (Hy : valid (date 2015 1 10)) by (apply validb_valid; reflexivity).
  split; [exact Hx|]. split; [exact Hy|].
  apply (abs_month_diff_symmetric _ _ Hx Hy); vm_compute; discriminate.
Defined.

(** C8, as claimed, fails at the end of a month: from 31 January to 28
    February is one month, from 28 February back to 31 January none. *)
Lemma abs_month_diff_not_symmetric :
  valid (date 2015 1 31) ∧ valid (date 2015 2 28)
  ∧ abs_month_diff (date 2015 2 28) (date 2015 1 31) = Some 1
  ∧ abs_month_diff (date 2015 1 31) (date 2015 2 28) = Some 0.
Proof.
  split; [apply validb_valid; reflexivity|].
  split; [apply validb_valid; reflexivity|].
  split; reflexivity.
Qed.

End MonthDiff.

(** ** Disease duration engine *)

Section Engine.

Context (parse : string → option datetime).

Implicit Types (diagnosis : list diagnosis_row) (exam : list exam_row).
Implicit Types (e : exam_row) (f : frame).

Lemma dict_of_acc (rows : list diagnosis_row) (m : gmap Z string) (p : Z) :
  (∀ r, r ∈ rows → dx_PATNO r = p → dx_PDDXDT r = None) →
  fold_left
    (fun m r =>
       match dx_PDDXDT r with
       | Some v => <[dx_PATNO r := v]> m
       | None => m
       end) rows m !! p = m !! p.
Proof.
  revert m. induction rows as [|r rows IH]; intros m Hrows; simpl; [done|].
  rewrite IH.
  - destruct (dx_PDDXDT r) as [v|] eqn:Hv; [|done].
    apply lookup_insert_ne. intros Hp.
    specialize (Hrows r (list_elem_of_here _ _) Hp). congruence.
  - intros r' Hr'. apply Hrows. by apply list_elem_of_further.
Qed.

(** A patient without a dated screening row is absent from the mapping. *)
Lemma PDDXDT_map_None diagnosis (p : Z) :
  (∀ r, r ∈ diagnosis → dx_PATNO r = p → dx_EVENT_ID r = "SC" →
        dx_PDDXDT r = None) →
  PDDXDT_map diagnosis !! p = None.
Proof.
  intros Hnone. unfold PDDXDT_map, dict_of.
  rewrite dict_of_acc; [apply lookup_empty|].
  intros r Hr Hp.
  apply list_elem_of_In, filter_In in Hr as [Hin Hsc].
  unfold is_screening in Hsc. apply andb_prop in Hsc as [Hev Hdate].
  apply String.eqb_eq in Hev. apply list_elem_of_In in Hin. auto.
Qed.

(** Of several dated screening rows of a patient the last one counts. *)
Lemma PDDXDT_map_last diagnosis (r : diagnosis_row) (v : string) :
  dx_EVENT_ID r = "SC" → dx_PDDXDT r = Some v →
  PDDXDT_map (diagnosis ++ [r]) !! dx_PATNO r = Some v.
Proof.
  intros Hev Hv. unfold PDDXDT_map, dict_of.
  rewrite List.filter_app, fold_left_app. simpl.
  unfold is_screening. rewrite Hev, Hv. simpl.
  rewrite Hv. apply lookup_insert_eq.
Qed.

(** The rows of the returned frame, one by one against the exam table. *)
Lemma disease_duration_rows diagnosis exam (minimal : bool) f :
  disease_duration parse diagnosis exam minimal = Some f →
  Forall2
    (fun e r =>
       ∃ dur,
         row_duration parse (ex_INFODT e)
           (PDDXDT_map diagnosis !! ex_PATNO e) = Some dur
         ∧ r = (ex_PATNO e, ex_EVENT_ID e, dur))
    exam (frame_rows f).
Proof.
  unfold disease_duration. intros Hf.
  destruct (mapM _ exam) as [pdxdur|] eqn:Hrows; [|discriminate].
  apply mapM_Some_1 in Hrows.
  assert (Hshape : frame_rows f = minimal_row <$> pdxdur).
  { destruct minimal; simplify_eq/=; reflexivity. }
  rewrite Hshape. apply Forall2_fmap_r.
  eapply Forall2_impl; [exact Hrows|].
  intros e r Hjoin. unfold join_row in Hjoin. simpl in Hjoin.
  destruct (row_duration _ _ _) as [dur|]; simplify_eq/=.
  eauto.
Qed.

(** A row with a diagnosis date is computed when both dates parse to
    [datetime] values. *)
Lemma row_duration_returns (infodt pddxdt : string) (x y : datetime) :
  parse infodt = Some x → parse pddxdt = Some y → valid x → valid y →
  row_duration parse (Some infodt) (Some pddxdt)
  = Some (Some (Z.abs (month_index x - month_index y + correction x y))).
Proof.
  intros Hpx Hpy Hx Hy. unfold row_duration, parse_cell. simpl.
  rewrite Hpx, Hpy. simpl.
  rewrite abs_month_diff_value by auto using valid_month. reflexivity.
Qed.

(** C10: the returned frame has one row for each row of the exam table,
    in the same order, with the patient id and the event id of that
    row. *)
Theorem disease_duration_preserves_rows diagnosis exam (minimal : bool) f :
  disease_duration parse diagnosis exam minimal = Some f →
  length (frame_rows f) = length exam
  ∧ (fun r => (r.1.1, r.1.2)) <$> frame_rows f
    = (fun e => (ex_PATNO e, ex_EVENT_ID e)) <$> exam.
Proof.
  intros Hf. apply disease_duration_rows in Hf.
  split; [symmetry; by eapply Forall2_length|].
  induction Hf as [|e r exam' rows' (dur & _ & ->) _ IH]; [done|].
  rewrite !fmap_cons, IH. reflexivity.
Qed.

(** C6: a row of the exam table whose patient has no dated screening row
    in the diagnosis table is in the returned frame, at its place, with no
    duration. *)
Theorem disease_duration_undefined diagnosis exam (minimal : bool) f
    (i : nat) e :
  disease_duration parse diagnosis exam minimal = Some f →
  exam !! i = Some e →
  (∀ r, r ∈ diagnosis → dx_PATNO r = ex_PATNO e → dx_EVENT_ID r = "SC" →
        dx_PDDXDT r = None) →
  frame_rows f !! i = Some (ex_PATNO e, ex_EVENT_ID e, None).
Proof.
  intros Hf Hi Hnone. apply disease_duration_rows in Hf.
  destruct (Forall2_lookup_l _ _ _ _ _ Hf Hi) as (r & Hr & dur & Hdur & ->).
  rewrite (PDDXDT_map_None _ _ Hnone) in Hdur. simpl in Hdur.
  by simplify_eq.
Qed.


End Engine.

(** C1, as the code has it.  For an exam row whose exam date [x] and
    diagnosis date [y] parse, the duration is
    [abs(years * 12) + abs(months)] of [relativedelta(x, y)].  It is 0 when
    the two dates lie in one calendar month.  For adjacent months it
    depends on the direction, since [relativedelta] always moves its second
    argument, the diagnosis date, into the month of the exam date, with its
    day cut down to the length of that month, and compares the exam date
    with the result: when the exam lies in the month after the diagnosis
    month, the duration is 0 if the exam date is before the moved diagnosis
    date and 1 otherwise; when the exam lies in the month before the
    diagnosis month, it is 0 if the exam date is after the moved diagnosis
    date and 1 otherwise.  With diagnosis 2015-01-10 and exam 2015-03-05 it
    is 1; with diagnosis 2015-02-28 and exam 2015-01-31 it is 0. *)
Theorem disease_duration_whole_months :
  (∀ (parse : string → option datetime)
     (diagnosis : list diagnosis_row) (exam : list exam_row)
     (minimal : bool) (f : frame) (i : nat) (e : exam_row)
     (pddxdt : string) (x y : datetime),
     disease_duration parse diagnosis exam minimal = Some f →
     exam !! i = Some e →
     PDDXDT_map diagnosis !! ex_PATNO e = Some pddxdt →
     parse_cell parse (ex_INFODT e) = Some x →
     parse pddxdt = Some y →
     valid x → valid y →
     ∃ delta n,
       relativedelta x y = Some delta
       ∧ n = Z.abs (years delta * 12) + Z.abs (months delta)
       ∧ frame_rows f !! i = Some (ex_PATNO e, ex_EVENT_ID e, Some n)
       ∧ (month_index x = month_index y → n = 0)
       ∧ (month_index x = month_index y + 1 →
          n = if lt x (moved_to (year x) (month x) y) then 0 else 1)
       ∧ (month_index y = month_index x + 1 →
          n = if gt x (moved_to (year x) (month x) y) then 0 else 1))
  ∧ disease_duration parse_ymd
      [mk_diagnosis 1 "SC" (Some "2015-01-10")]
      [mk_exam 1 "V02" (Some "2015-03-05")] true
    = Some (Minimal [(1, "V02", Some 1)])
  ∧ disease_duration parse_ymd
      [mk_diagnosis 1 "SC" (Some "2015-02-28")]
      [mk_exam 1 "BL" (Some "2015-01-31")] true
    = Some (Minimal [(1, "BL", Some 0)]).
Proof.
  split; [|split; vm_compute; reflexivity].
  intros parse diagnosis exam minimal f i e pddxdt x y
    Hf Hi Hdate Hpx Hpy Hx Hy.
  pose proof (valid_month x Hx) as Hmx.
  pose proof (valid_month y Hy) as Hmy.
  destruct (relativedelta_in_fuel 1 x y Hmx Hmy) as [_ [delta Hdelta]].
  exists delta, (Z.abs (years delta * 12) + Z.abs (months delta)).
  assert (Hvalue : abs_month_diff x y
            = Some (Z.abs (years delta * 12) + Z.abs (months delta))).
  { unfold abs_month_diff. by rewrite Hdelta. }
  pose proof (abs_month_diff_value x y Hmx Hmy) as Habs.
  rewrite Hvalue in Habs. injection Habs as Habs.
  split; [done|]. split; [done|]. split.
  - apply disease_duration_rows in Hf.
    destruct (Forall2_lookup_l _ _ _ _ _ Hf Hi) as (r & Hr & dur & Hdur & ->).
    rewrite Hdate in Hdur. unfold row_duration in Hdur.
    rewrite Hpx in Hdur. simpl in Hdur. rewrite Hpy in Hdur.
    simpl in Hdur. rewrite Hvalue in Hdur. simpl in Hdur.
    by simplify_eq.
  - rewrite Habs. split; [|split]; intros Hidx.
    + rewrite correction_same_month by done. lia.
    + rewrite correction_later_month by (done || lia).
      destruct (lt x _); lia.
    + rewrite correction_earlier_month by (done || lia).
      destruct (gt x _); lia.
Qed.

Lemma disease_duration_whole_months_witness :
  ∃ delta n,
    relativedelta (date 2016 1 10) (date 2015 1 10) = Some delta
    ∧ n = Z.abs (years delta * 12) + Z.abs (months delta)
    ∧ [(1, "BL", Some 1); (2, "BL", None); (3, "BL", None);
       (1, "V04", Some 12)] !! 3%nat
      = Some (1, "V04", Some n)
    ∧ (month_index (date 2016 1 10) = month_index (date 2015 1 10) → n = 0)
    ∧ (month_index (date 2016 1 10) = month_index (date 2015 1 10) + 1 →
       n = if lt (date 2016 1 10)
                 (moved_to 2016 1 (date 2015 1 10)) then 0 else 1)
    ∧ (month_index (date 2015 1 10) = month_index (date 2016 1 10) + 1 →
       n = if gt (date 2016 1 10)
                 (moved_to 2016 1 (date 2015 1 10)) then 0 else 1).
Proof.
  apply (proj1 disease_duration_whole_months parse_ymd
           sample_diagnosis sample_exam true
           (Minimal [(1, "BL", Some 1); (2, "BL", None); (3, "BL", None);
                     (1, "V04", Some 12)])
           3%nat (mk_exam 1 "V04" (Some "2016-01-10")) "2015-01-10"
           (date 2016 1 10) (date 2015 1 10)).
  - vm_compute. reflexivity.
  - reflexivity.
  - vm_compute. reflexivity.
  - vm_compute. reflexivity.
  - vm_compute. reflexivity.
  - apply validb_valid. reflexivity.
  - apply validb_valid. reflexivity.
Defined.

(** C1, as claimed, fails: from 2015-01-10 to 2015-03-05 the duration is
    1, not 2, and from 31 January to 1 February, in the next month, it is
    0, not 1. *)
Lemma disease_duration_not_month_numbers :
  disease_duration parse_ymd
    [mk_diagnosis 1 "SC" (Some "2015-01-10");
     mk_diagnosis 2 "SC" (Some "2015-01-31")]
    [mk_exam 1 "V02" (Some "2015-03-05");
     mk_exam 2 "V01" (Some "2015-02-01")] true
  = Some (Minimal [(1, "V02", Some 1); (2, "V01", Some 0)])
  ∧ abs_month_diff (date 2015 3 5) (date 2015 1 10) ≠ Some 2
  ∧ abs_month_diff (date 2015 2 1) (date 2015 1 31) ≠ Some 1.
Proof. split; [vm_compute; reflexivity|]. split; vm_compute; discriminate. Qed.

Lemma disease_duration_preserves_rows_witness :
  disease_duration parse_ymd sample_diagnosis sample_exam true
  = Some (Minimal [(1, "BL", Some 1); (2, "BL", None); (3, "BL", None);
                   (1, "V04", Some 12)])
  ∧ length [(1, "BL", Some 1); (2, "BL", @None Z); (3, "BL", None);
            (1, "V04", Some 12)] = length sample_exam
  ∧ (fun r : Z * string * option Z => (r.1.1, r.1.2))
      <$> [(1, "BL", Some 1); (2, "BL", None); (3, "BL", None);
           (1, "V04", Some 12)]
    = (fun e => (ex_PATNO e, ex_EVENT_ID e)) <$> sample_exam.
Proof.
  assert (Hf : disease_duration parse_ymd sample_diagnosis sample_exam true
            = Some (Minimal [(1, "BL", Some 1); (2, "BL", None);
                             (3, "BL", None); (1, "V04", Some 12)]))
    by (vm_compute; reflexivity).
  split; [exact Hf|].
  exact (disease_duration_preserves_rows parse_ymd _ _ _ _ Hf).
Defined.

Lemma disease_duration_undefined_witness :
  [(1, "BL", Some 1); (2, "BL", None); (3, "BL", None);
   (1, "V04", Some 12)] !! 1%nat
  = Some (2, "BL", @None Z).
Proof.
  apply (disease_duration_undefined parse_ymd sample_diagnosis sample_exam
           true
           (Minimal [(1, "BL", Some 1); (2, "BL", None); (3, "BL", None);
                     (1, "V04", Some 12)])
           1%nat (mk_exam 2 "BL" (Some "2015-03-05"))).
  - vm_compute. reflexivity.
  - reflexivity.
  - intros r Hr Hp Hev. unfold sample_diagnosis in Hr.
    rewrite !elem_of_cons, elem_of_nil in Hr.
    destruct Hr as [->|[->|[->|[]]]]; simpl in *;
      [discriminate | reflexivity | discriminate].
Defined.



(** * Further properties *)

(** ** The identifier as a rendering of the hash *)

Section Rendering.

Local Abbreviation render :=
  (fun h : Z => Py.replace Py.chr_minus Py.chr_underscore (Py.str h)).

Lemma digit_of_pretty_N_char (r : N) :
  (r < 10)%N → Py.digit_of (pretty_N_char r) = Some (Z.of_N r).
Proof.
  intros Hr.
  assert (r = 0 ∨ r = 1 ∨ r = 2 ∨ r = 3 ∨ r = 4 ∨ r = 5 ∨ r = 6 ∨ r = 7
          ∨ r = 8 ∨ r = 9)%N as Hcases by lia.
  repeat (destruct Hcases as [->|Hcases]; [reflexivity|]).
  by subst.
Qed.

(** Reading the digits written for [x] continues from [acc] shifted by
    their number of places. *)
Lemma int_digits_pretty_N_go (x : N) :
  (0 < x)%N →
  ∃ k, ∀ acc b s,
    Py.int_digits acc b (pretty_N_go x s)
    = Py.int_digits (acc * k + Z.of_N x) true s.
Proof.
  induction (N.lt_wf_0 x) as [x _ IH]. intros Hx.
  pose proof (N.mod_lt x 10 ltac:(lia)) as Hr.
  pose proof (N.div_mod x 10 ltac:(lia)) as Hdm.
  destruct (decide (x `div` 10 = 0)%N) as [Hq|Hq].
  - exists 10. intros acc b s.
    rewrite pretty_N_go_step, Hq, pretty_N_go_0 by done. simpl.
    rewrite digit_of_pretty_N_char by done. f_equal. lia.
  - destruct (IH (x `div` 10)%N) as [k Hk];
      [apply N.div_lt; lia | lia |].
    exists (k * 10). intros acc b s.
    rewrite pretty_N_go_step, Hk by done. simpl.
    rewrite digit_of_pretty_N_char by done. f_equal. lia.
Qed.

Lemma int_digits_pretty (p : positive) :
  Py.int_digits 0 false (pretty_N_go (N.pos p) "") = Some (Z.pos p).
Proof.
  destruct (int_digits_pretty_N_go (N.pos p)) as [k Hk]; [lia|].
  rewrite Hk. simpl. f_equal.
Qed.

Lemma replace_pretty_N_go (x : N) (s : string) :
  Py.replace Py.chr_minus Py.chr_underscore (pretty_N_go x s)
  = pretty_N_go x (Py.replace Py.chr_minus Py.chr_underscore s).
Proof.
  revert s. induction (N.lt_wf_0 x) as [x _ IH]. intros s.
  destruct (decide (x = 0)%N) as [->|Hx]; [by rewrite !pretty_N_go_0|].
  assert (Hc : Ascii.eqb (pretty_N_char (x `mod` 10)) Py.chr_minus = false).
  { unfold pretty_N_char. repeat case_match; reflexivity. }
  rewrite (pretty_N_go_step x s) by lia.
  rewrite (pretty_N_go_step x (Py.replace _ _ s)) by lia.
  rewrite IH by (apply N.div_lt; lia). simpl. by rewrite Hc.
Qed.

(** The digits start with a digit, so [int] reads them as unsigned. *)
Lemma int_pretty_N_go (x : N) (s : string) :
  (0 < x)%N →
  Py.int (pretty_N_go x s) = Py.int_digits 0 false (pretty_N_go x s).
Proof.
  revert s. induction (N.lt_wf_0 x) as [x _ IH]. intros s Hx.
  rewrite pretty_N_go_step by done.
  destruct (decide (x `div` 10 = 0)%N) as [Hq|Hq].
  - rewrite Hq, pretty_N_go_0. unfold pretty_N_char.
    by repeat case_match.
  - apply IH; [apply N.div_lt; lia | by apply N.neq_0_lt_0].
Qed.

Lemma render_pos (p : positive) :
  render (Z.pos p) = pretty_N_go (N.pos p) "".
Proof.
  unfold Py.str, pretty, pretty_Z, pretty, pretty_positive, pretty, pretty_N.
  rewrite decide_False by done. by rewrite replace_pretty_N_go.
Qed.

Lemma render_neg (p : positive) :
  render (Z.neg p) = String Py.chr_underscore (pretty_N_go (N.pos p) "").
Proof.
  unfold Py.str, pretty, pretty_Z, pretty, pretty_positive, pretty, pretty_N.
  rewrite decide_False by done. simpl.
  change ("" +:+ pretty_N_go (N.pos p) "") with (pretty_N_go (N.pos p) "").
  by rewrite replace_pretty_N_go.
Qed.

Lemma int_render (h : Z) :
  Py.int (render h) = if h <? 0 then None else Some h.
Proof.
  destruct h as [|p|p]; [reflexivity|..].
  - rewrite render_pos, int_pretty_N_go by lia. apply int_digits_pretty.
  - rewrite render_neg. reflexivity.
Qed.

Lemma render_inj (h1 h2 : Z) : render h1 = render h2 → h1 = h2.
Proof.
  intros Heq. pose proof (f_equal Py.int Heq) as Hint.
  rewrite !int_render in Hint.
  destruct (Z.ltb_spec h1 0), (Z.ltb_spec h2 0); simplify_eq; [|done].
  destruct h1 as [|p1|p1], h2 as [|p2|p2]; try lia.
  rewrite !render_neg in Heq. injection Heq as Heq.
  pose proof (f_equal (Py.int_digits 0 false) Heq) as Hd.
  rewrite !int_digits_pretty in Hd. by simplify_eq.
Qed.

(** [int] reads the identifier back exactly when the hash of the sorted
    ids is not negative, and then as that hash. *)
Theorem cohort_id_int (cohort : list Z) :
  Py.int (cohort_id cohort)
  = if Py.hash_tuple (Py.sorted cohort) <? 0 then None
    else Some (Py.hash_tuple (Py.sorted cohort)).
Proof. unfold cohort_id. apply int_render. Qed.

(** The rendering loses nothing: two cohorts get the same identifier
    exactly when the hashes of their sorted ids are equal. *)
Theorem cohort_id_eq_iff_hash (c1 c2 : list Z) :
  cohort_id c1 = cohort_id c2
  ↔ Py.hash_tuple (Py.sorted c1) = Py.hash_tuple (Py.sorted c2).
Proof.
  unfold cohort_id. split; [apply render_inj | by intros ->].
Qed.

End Rendering.

(** ** The canonical form of a protocol description *)

Section CanonicalForm.

Local Abbreviation us := Py.chr_underscore.
Local Abbreviation plain := (fun c => Re.in_class c = false).
Local Abbreviation separator := (fun c => Re.in_class c = true ∨ c = us).

Lemma ends_with_rstrip (ch : ascii) (s : string) :
  Os.ends_with ch (Str.rstrip ch s) = false.
Proof.
  induction s as [|c s IH]; simpl; [done|].
  destruct (Ascii.eqb c ch) eqn:Hc; simpl.
  - destruct (Str.rstrip ch s) eqn:Hr; simpl; [done|]. exact IH.
  - destruct (Str.rstrip ch s) eqn:Hr; simpl; [exact Hc | exact IH].
Qed.

Lemma rstrip_id (ch : ascii) (s : string) :
  Os.ends_with ch s = false → Str.rstrip ch s = s.
Proof.
  induction s as [|c s IH]; [done|].
  destruct s as [|c' s].
  - simpl. by intros ->.
  - intros Hend. change (Os.ends_with ch (String c' s) = false) in Hend.
    change (Str.rstrip ch (String c (String c' s)))
      with (let r := Str.rstrip ch (String c' s) in
            if Ascii.eqb c ch && Str.is_empty r then EmptyString
            else String c r).
    rewrite (IH Hend). simpl. by rewrite andb_false_r.
Qed.

(** A string in canonical form is left as it is. *)
Lemma clean_canonical (s : string) :
  string_Forall plain s → no_runs s →
  Re.starts_with us s = false → Os.ends_with us s = false →
  clean_protocol_description s = s.
Proof.
  intros Hplain Hruns Hstart Hend. unfold clean_protocol_description.
  rewrite (sub_class_id _ Hplain), (sub_runs_id _ Hruns).
  unfold Str.strip. rewrite (lstrip_id _ _ Hstart). by apply rstrip_id.
Qed.

Lemma clean_starts (desc : string) :
  Re.starts_with us (clean_protocol_description desc) = false.
Proof.
  unfold clean_protocol_description, Str.strip.
  destruct (Re.starts_with us (Str.rstrip us _)) eqn:Hr; [|done].
  apply starts_with_rstrip in Hr. by rewrite starts_with_lstrip in Hr.
Qed.

Lemma clean_ends (desc : string) :
  Os.ends_with us (clean_protocol_description desc) = false.
Proof. unfold clean_protocol_description, Str.strip. apply ends_with_rstrip. Qed.

Lemma string_Forall_In (P : ascii → Prop) (s : string) :
  string_Forall P s ↔ ∀ c, In c (list_ascii_of_string s) → P c.
Proof.
  induction s as [|a s IH]; simpl; [intuition|].
  rewrite IH. intuition (subst; auto).
Qed.

(** The canonical form is safe for a path segment and a glob pattern: it
    holds no white space, parenthesis, slash or hyphen, no two underscores
    in a row, and no underscore at either end. *)
Theorem clean_protocol_description_safe (desc : string) :
  (∀ c, In c (list_ascii_of_string (clean_protocol_description desc)) →
        Re.in_class c = false)
  ∧ no_runs (clean_protocol_description desc)
  ∧ Re.starts_with us (clean_protocol_description desc) = false
  ∧ Os.ends_with us (clean_protocol_description desc) = false.
Proof.
  split; [apply string_Forall_In, clean_plain|].
  split; [apply clean_no_runs|].
  split; [apply clean_starts | apply clean_ends].
Qed.

(** The strings that the function leaves unchanged are exactly the ones
    in canonical form. *)
Theorem clean_protocol_description_fixed_points (s : string) :
  clean_protocol_description s = s
  ↔ string_Forall plain s ∧ no_runs s
    ∧ Re.starts_with us s = false ∧ Os.ends_with us s = false.
Proof.
  split.
  - intros <-. split; [apply clean_plain|].
    split; [apply clean_no_runs|].
    split; [apply clean_starts | apply clean_ends].
  - intros (Hplain & Hruns & Hstart & Hend). by apply clean_canonical.
Qed.

Lemma sub_class_length (s : string) :
  String.length (Re.sub_class s) = String.length s.
Proof. induction s as [|c s IH]; simpl; [done|]. by rewrite IH. Qed.

Lemma sub_runs_length (s : string) :
  (String.length (Re.sub_runs s) <= String.length s)%nat.
Proof.
  induction s as [|c s IH]; simpl; [done|].
  destruct (_ && _); simpl; lia.
Qed.

Lemma lstrip_length (ch : ascii) (s : string) :
  (String.length (Str.lstrip ch s) <= String.length s)%nat.
Proof.
  induction s as [|c s IH]; simpl; [done|].
  destruct (Ascii.eqb c ch); simpl; lia.
Qed.

Lemma rstrip_length (ch : ascii) (s : string) :
  (String.length (Str.rstrip ch s) <= String.length s)%nat.
Proof.
  induction s as [|c s IH]; simpl; [done|].
  destruct (_ && _); simpl; lia.
Qed.

(** The canonical form is never longer than the description. *)
Theorem clean_protocol_description_length (desc : string) :
  (String.length (clean_protocol_description desc) <= String.length desc)%nat.
Proof.
  unfold clean_protocol_description, Str.strip.
  etrans; [apply rstrip_length|]. etrans; [apply lstrip_length|].
  etrans; [apply sub_runs_length|]. by rewrite sub_class_length.
Qed.

Lemma lstrip_empty (s : string) :
  Str.lstrip us s = EmptyString ↔ string_Forall (fun c => c = us) s.
Proof.
  induction s as [|c s IH]; simpl; [done|].
  destruct (Ascii.eqb_spec c us) as [->|Hc]; [rewrite IH|];
    intuition congruence.
Qed.

Lemma strip_empty (s : string) :
  Str.strip us s = EmptyString ↔ string_Forall (fun c => c = us) s.
Proof.
  rewrite <-lstrip_empty. unfold Str.strip. split; [|by intros ->].
  pose proof (starts_with_lstrip us s) as Hstart.
  destruct (Str.lstrip us s) as [|c t]; [done|]. simpl in *.
  rewrite Hstart. simpl. discriminate.
Qed.

Lemma sub_runs_underscores (s : string) :
  string_Forall (fun c => c = us) (Re.sub_runs s)
  ↔ string_Forall (fun c => c = us) s.
Proof.
  induction s as [|c s IH]; simpl; [done|].
  destruct (Ascii.eqb c us && Re.starts_with us s) eqn:Hrun; simpl.
  - apply andb_prop in Hrun as [Hc _]. apply Ascii.eqb_eq in Hc.
    rewrite IH. intuition congruence.
  - by rewrite IH.
Qed.

Lemma sub_class_underscores (s : string) :
  string_Forall (fun c => c = us) (Re.sub_class s)
  ↔ string_Forall separator s.
Proof.
  induction s as [|c s IH]; simpl; [done|]. rewrite IH.
  destruct (Re.in_class c) eqn:Hc; intuition congruence.
Qed.

(** The canonical form is empty exactly when the description is made of
    separators only: characters of the class and underscores. *)
Theorem clean_protocol_description_empty (desc : string) :
  clean_protocol_description desc = EmptyString
  ↔ string_Forall separator desc.
Proof.
  unfold clean_protocol_description.
  by rewrite strip_empty, sub_runs_underscores, sub_class_underscores.
Qed.

End CanonicalForm.

(** ** The search pattern and the result of the resolver *)

Section Pattern.

Local Open Scope string_scope.

Lemma string_app_assoc (a b c : string) :
  ((a ++ b) ++ c = a ++ (b ++ c))%string.
Proof.
  induction a as [|x a IH]; [done|].
  change (String x ((a ++ b) ++ c) = String x (a ++ (b ++ c)))%string.
  by rewrite IH.
Qed.

Lemma is_empty_app (a b : string) :
  Str.is_empty b = false → Str.is_empty (a ++ b)%string = false.
Proof. by destruct a. Qed.

Lemma ends_with_app (ch : ascii) (a b : string) :
  Str.is_empty b = false →
  Os.ends_with ch (a ++ b)%string = Os.ends_with ch b.
Proof.
  intros Hb. induction a as [|x a IH]; [done|].
  change (Os.ends_with ch (String x (a ++ b)) = Os.ends_with ch b)%string.
  pose proof (is_empty_app a b Hb) as Hab.
  destruct (a ++ b)%string; [discriminate | exact IH].
Qed.

(** A relative component is appended after one separator when the path
    so far is not empty and does not end with one. *)
Lemma join2_relative (path b : string) :
  Str.is_empty path = false → Os.ends_with Os.sep path = false →
  Re.starts_with Os.sep b = false →
  Os.join2 path b = (path ++ String Os.sep b)%string.
Proof. intros Hne Hend Hb. unfold Os.join2. by rewrite Hb, Hne, Hend. Qed.

Lemma ends_with_sub (s : string) :
  Os.ends_with Os.sep ("sub-" ++ s)%string = Os.ends_with Os.sep s.
Proof. by destruct s. Qed.

Lemma ends_with_ses (s : string) :
  Os.ends_with Os.sep ("ses-" ++ s)%string = Os.ends_with Os.sep s.
Proof. by destruct s. Qed.

Context (subject_id event_id protocol_description : string).
Context (cache_dir base_dir : string).

(** The pattern follows the layout
    [cache_dir/base_dir/sub-S/ses-E/anat/PPMI_*P_br_raw_*.nii] whenever the
    two directories are not empty, none of the four components ends with a
    separator, and [base_dir] is relative. *)
Theorem expression_of_layout :
  Str.is_empty cache_dir = false → Os.ends_with Os.sep cache_dir = false →
  Str.is_empty base_dir = false → Re.starts_with Os.sep base_dir = false →
  Os.ends_with Os.sep base_dir = false →
  Os.ends_with Os.sep subject_id = false →
  Os.ends_with Os.sep event_id = false →
  expression_of subject_id event_id protocol_description cache_dir base_dir
  = (cache_dir ++ "/" ++ base_dir ++ "/sub-" ++ subject_id
       ++ "/ses-" ++ event_id ++ "/anat/PPMI_*"
       ++ clean_protocol_description protocol_description
       ++ "_br_raw_*.nii")%string.
Proof.
  intros Hc1 Hc2 Hb1 Hb2 Hb3 Hs He.
  unfold expression_of, Os.join. simpl fold_left.
  rewrite (join2_relative cache_dir base_dir) by done.
  rewrite (join2_relative _ ("sub-" ++ subject_id)%string); [| |  |done].
  2: { by apply is_empty_app. }
  2: { rewrite ends_with_app by done.
       destruct base_dir; [discriminate | exact Hb3]. }
  rewrite (join2_relative _ ("ses-" ++ event_id)%string); [| |  |done].
  2: { by apply is_empty_app. }
  2: { rewrite ends_with_app by done.
       change (Os.ends_with Os.sep ("sub-" ++ subject_id)%string = false).
       by rewrite ends_with_sub. }
  rewrite (join2_relative _ "anat"); [| |  |done].
  2: { by apply is_empty_app. }
  2: { rewrite ends_with_app by done.
       change (Os.ends_with Os.sep ("ses-" ++ event_id)%string = false).
       by rewrite ends_with_ses. }
  rewrite join2_relative; [| |  |done].
  2: { by apply is_empty_app. }
  2: { by rewrite ends_with_app. }
  rewrite !string_app_assoc. reflexivity.
Qed.

(** An absolute [base_dir] makes the search ignore [cache_dir]. *)
Theorem expression_of_absolute_base (other_cache_dir : string) :
  Re.starts_with Os.sep base_dir = true →
  expression_of subject_id event_id protocol_description cache_dir base_dir
  = expression_of subject_id event_id protocol_description
      other_cache_dir base_dir.
Proof.
  intros Habs. unfold expression_of, Os.join. simpl fold_left.
  unfold Os.join2 at 5 10. by rewrite Habs.
Qed.

Context (glob : string → list string).

Local Abbreviation expression :=
  (expression_of subject_id event_id protocol_description
     cache_dir base_dir).
Local Abbreviation result :=
  (find_nifti_file_in_cache glob subject_id event_id protocol_description
     cache_dir base_dir).

(** A path is returned only when it is the one match of the pattern, and
    nothing is logged exactly when there is one match. *)
Theorem find_nifti_file_in_cache_found :
  (result.1 ≠ "" → glob expression = [result.1])
  ∧ (result.2 = [] ↔ length (glob expression) = 1%nat).
Proof.
  unfold find_nifti_file_in_cache.
  destruct (glob expression) as [|f [|g files]]; simpl.
  - split; [done|]. split; discriminate.
  - split; [done|]. split; done.
  - split; [done|]. split; discriminate.
Qed.

(** The canonical form of a description is looked up like the description
    itself: same search, same result, same warning. *)
Theorem find_nifti_file_in_cache_canonical :
  find_nifti_file_in_cache glob subject_id event_id
    (clean_protocol_description protocol_description) cache_dir base_dir
  = result.
Proof.
  unfold find_nifti_file_in_cache, expression_of.
  rewrite (clean_canonical (clean_protocol_description protocol_description)
             (clean_plain _) (clean_no_runs _) (clean_starts _)
             (clean_ends _)).
  reflexivity.
Qed.

End Pattern.

Lemma expression_of_layout_witness :
  expression_of "3001" "BL" "MPRAGE GRAPPA" ".cache" "inputs"
  = ".cache/inputs/sub-3001/ses-BL/anat/PPMI_*MPRAGE_GRAPPA_br_raw_*.nii".
Proof.
  apply (expression_of_layout "3001" "BL" "MPRAGE GRAPPA" ".cache" "inputs");
    reflexivity.
Defined.

Lemma expression_of_absolute_base_witness :
  expression_of "3001" "BL" "MPRAGE" ".cache" "/data/ppmi"
  = expression_of "3001" "BL" "MPRAGE" "elsewhere" "/data/ppmi".
Proof.
  apply (expression_of_absolute_base "3001" "BL" "MPRAGE" ".cache"
           "/data/ppmi" "elsewhere").
  reflexivity.
Defined.

Lemma find_nifti_file_in_cache_found_witness :
  Fs.glob sample_fs
    (expression_of "3001" "BL" "MPRAGE" ".cache" "inputs")
  = [(find_nifti_file_in_cache (Fs.glob sample_fs) "3001" "BL" "MPRAGE"
        ".cache" "inputs").1].
Proof.
  apply (proj1 (find_nifti_file_in_cache_found "3001" "BL" "MPRAGE"
                  ".cache" "inputs" (Fs.glob sample_fs))).
  vm_compute. discriminate.
Defined.

(** ** The month difference against the month numbers *)

Section MonthNumbers.

Implicit Types x y : datetime.

Lemma compare_clock_same x y :
  day x = day y → hour x = hour y → minute x = minute y →
  second x = second y → microsecond x = microsecond y →
  compare_clock x y = Eq.
Proof.
  intros Hd Hh Hm Hs Hu. unfold compare_clock.
  rewrite Hd, Hh, Hm, Hs, Hu. by rewrite !Z.compare_refl.
Qed.

(** A date is no month away from itself. *)
Theorem abs_month_diff_same_date x :
  valid x → abs_month_diff x x = Some 0.
Proof.
  intros Hx. pose proof (valid_month x Hx).
  rewrite abs_month_diff_value by done.
  rewrite correction_same_month by done. f_equal. lia.
Qed.

(** On [datetime] values the month difference is the distance of the two
    month numbers or one less, never more. *)
Theorem abs_month_diff_bounds x y :
  valid x → valid y →
  ∃ n, abs_month_diff x y = Some n
       ∧ Z.abs (month_index x - month_index y) - 1 <= n
       ∧ n <= Z.abs (month_index x - month_index y)
       ∧ 0 <= n.
Proof.
  intros Hx Hy.
  pose proof (valid_month x Hx). pose proof (valid_month y Hy).
  eexists. split; [by apply abs_month_diff_value|].
  destruct (Z.lt_trichotomy (month_index x) (month_index y))
    as [Hlt|[Heq|Hgt]].
  - rewrite correction_earlier_month by done.
    destruct (gt x _); lia.
  - rewrite correction_same_month by done. lia.
  - rewrite correction_later_month by done.
    destruct (lt x _); lia.
Qed.

(** Two dates on the same day of the month at the same time of day, such
    as the month-and-year dates of the study tables, are exactly as many
    months apart as their month numbers. *)
Theorem abs_month_diff_same_day x y :
  valid x → valid y →
  day x = day y → hour x = hour y → minute x = minute y →
  second x = second y → microsecond x = microsecond y →
  abs_month_diff x y = Some (Z.abs (month_index x - month_index y)).
Proof.
  intros Hx Hy Hd Hh Hm Hs Hu.
  pose proof (valid_month x Hx). pose proof (valid_month y Hy).
  rewrite abs_month_diff_value by done.
  assert (Hday : day y <= monthrange (year x) (month x)).
  { rewrite <-Hd. unfold valid in Hx. tauto. }
  assert (Hc : correction x y = 0).
  { unfold correction, lt, gt.
    rewrite compare_same_month, (compare_clock_moved x y _ _ Hday).
    rewrite compare_clock_same by done. by destruct (compare x y). }
  rewrite Hc. f_equal. lia.
Qed.

End MonthNumbers.

Lemma abs_month_diff_same_date_witness :
  abs_month_diff (date 2016 2 29) (date 2016 2 29) = Some 0.
Proof.
  apply (abs_month_diff_same_date (date 2016 2 29)).
  apply validb_valid. reflexivity.
Defined.

Lemma abs_month_diff_bounds_witness :
  ∃ n, abs_month_diff (date 2015 3 5) (date 2013 11 20) = Some n
       ∧ Z.abs (month_index (date 2015 3 5) - month_index (date 2013 11 20))
         - 1 <= n
       ∧ n <= Z.abs (month_index (date 2015 3 5)
                     - month_index (date 2013 11 20))
       ∧ 0 <= n.
Proof.
  apply (abs_month_diff_bounds (date 2015 3 5) (date 2013 11 20));
    apply validb_valid; reflexivity.
Defined.

Lemma abs_month_diff_same_day_witness :
  abs_month_diff (date 2012 6 4) (date 2010 1 4)
  = Some (Z.abs (month_index (date 2012 6 4) - month_index (date 2010 1 4))).
Proof.
  apply (abs_month_diff_same_day (date 2012 6 4) (date 2010 1 4));
    try reflexivity; apply validb_valid; reflexivity.
Defined.

(** ** The diagnosis mapping and the returned frame *)


Section Mapping.

Implicit Types (diagnosis : list diagnosis_row) (r : diagnosis_row).

Lemma is_screening_date r :
  is_screening r = true → ∃ v, dx_EVENT_ID r = "SC" ∧ dx_PDDXDT r = Some v.
Proof.
  unfold is_screening. intros [Hev Hdate]%andb_prop.
  apply String.eqb_eq in Hev. apply bool_decide_eq_true in Hdate as [v Hv].
  eauto.
Qed.

Lemma is_screening_true r (v : string) :
  dx_EVENT_ID r = "SC" → dx_PDDXDT r = Some v → is_screening r = true.
Proof. unfold is_screening. by intros -> ->. Qed.

Lemma PDDXDT_map_snoc diagnosis r :
  PDDXDT_map (diagnosis ++ [r])
  = if is_screening r
    then match dx_PDDXDT r with
         | Some v => <[dx_PATNO r := v]> (PDDXDT_map diagnosis)
         | None => PDDXDT_map diagnosis
         end
    else PDDXDT_map diagnosis.
Proof.
  unfold PDDXDT_map, dict_of. rewrite List.filter_app. simpl.
  destruct (is_screening r); simpl.
  - by rewrite fold_left_app.
  - by rewrite app_nil_r.
Qed.

(** A row added at the end of the diagnosis table sets the date of its
    patient when it is a dated screening row, and changes nothing
    otherwise. *)
Theorem PDDXDT_map_append diagnosis r (p : Z) :
  PDDXDT_map (diagnosis ++ [r]) !! p
  = if is_screening r && (dx_PATNO r =? p) then dx_PDDXDT r
    else PDDXDT_map diagnosis !! p.
Proof.
  rewrite PDDXDT_map_snoc.
  destruct (is_screening r) eqn:Hsc; simpl; [|done].
  destruct (is_screening_date r Hsc) as (v & _ & Hv). rewrite Hv.
  destruct (Z.eqb_spec (dx_PATNO r) p) as [->|Hp].
  - apply lookup_insert_eq.
  - by apply lookup_insert_ne.
Qed.

(** Of the dated screening rows of a patient, the last one of the table
    gives the date. *)
Theorem PDDXDT_map_last_wins (before after : list diagnosis_row) r
    (v : string) :
  dx_EVENT_ID r = "SC" → dx_PDDXDT r = Some v →
  (∀ r', r' ∈ after → dx_PATNO r' = dx_PATNO r → is_screening r' = false) →
  PDDXDT_map (before ++ r :: after) !! dx_PATNO r = Some v.
Proof.
  intros Hev Hv Hafter. unfold PDDXDT_map, dict_of.
  rewrite List.filter_app. simpl.
  rewrite (is_screening_true r v Hev Hv).
  rewrite fold_left_app. simpl. rewrite Hv.
  rewrite dict_of_acc; [apply lookup_insert_eq|].
  intros r' Hr' Hp.
  apply list_elem_of_In, filter_In in Hr' as [Hin Hsc].
  apply list_elem_of_In in Hin.
  rewrite (Hafter r' Hin Hp) in Hsc. discriminate.
Qed.

Lemma PDDXDT_map_origin diagnosis (p : Z) (v : string) :
  PDDXDT_map diagnosis !! p = Some v →
  ∃ r, r ∈ diagnosis ∧ dx_PATNO r = p ∧ dx_EVENT_ID r = "SC"
       ∧ dx_PDDXDT r = Some v.
Proof.
  induction diagnosis as [|r diagnosis IH] using rev_ind.
  - unfold PDDXDT_map, dict_of. simpl. by rewrite lookup_empty.
  - rewrite PDDXDT_map_snoc.
    assert (Hold : PDDXDT_map diagnosis !! p = Some v →
              ∃ r0, r0 ∈ (diagnosis ++ [r])%list ∧ dx_PATNO r0 = p
                    ∧ dx_EVENT_ID r0 = "SC" ∧ dx_PDDXDT r0 = Some v).
    { intros (r0 & Hin & Hrest)%IH. exists r0. split; [|done].
      apply elem_of_app. by left. }
    destruct (is_screening r) eqn:Hsc; [|done].
    destruct (is_screening_date r Hsc) as (w & Hev & Hw). rewrite Hw.
    destruct (decide (dx_PATNO r = p)) as [Hp|Hp].
    + rewrite <-Hp, lookup_insert_eq. intros [= ->].
      exists r. split; [|done]. apply elem_of_app. right.
      apply list_elem_of_here.
    + by rewrite lookup_insert_ne.
Qed.

Lemma PDDXDT_map_is_Some diagnosis (p : Z) :
  is_Some (PDDXDT_map diagnosis !! p)
  ↔ ∃ r, r ∈ diagnosis ∧ dx_PATNO r = p ∧ dx_EVENT_ID r = "SC"
         ∧ is_Some (dx_PDDXDT r).
Proof.
  split.
  - intros [v (r & Hin & Hp & Hev & Hv)%PDDXDT_map_origin]. eauto 6.
  - intros (r & Hin & Hp & Hev & Hdate).
    destruct (PDDXDT_map diagnosis !! p) eqn:Hlook; [eauto|].
    exfalso. revert Hlook. unfold PDDXDT_map, dict_of.
    induction diagnosis as [|r0 diagnosis IH] using rev_ind.
    { by apply elem_of_nil in Hin. }
    fold (dict_of (List.filter is_screening (diagnosis ++ [r0]))).
    fold (PDDXDT_map (diagnosis ++ [r0])).
    rewrite PDDXDT_map_append.
    apply elem_of_app in Hin as [Hin|Hin].
    + destruct (is_screening r0 && (dx_PATNO r0 =? p)) eqn:Hc.
      * apply andb_prop in Hc as [Hsc _].
        destruct (is_screening_date r0 Hsc) as (w & _ & ->). discriminate.
      * exact (IH Hin).
    + apply list_elem_of_singleton in Hin as ->.
      destruct Hdate as [w Hw].
      rewrite (is_screening_true r0 w Hev Hw), Hw.
      rewrite (proj2 (Z.eqb_eq _ _) Hp). discriminate.
Qed.

(** A date of the mapping is the date of a screening row of that patient,
    and a patient is in the mapping exactly when the diagnosis table has a
    dated screening row for the patient. *)
Theorem PDDXDT_map_lookup diagnosis (p : Z) :
  (∀ v, PDDXDT_map diagnosis !! p = Some v →
        ∃ r, r ∈ diagnosis ∧ dx_PATNO r = p ∧ dx_EVENT_ID r = "SC"
             ∧ dx_PDDXDT r = Some v)
  ∧ (is_Some (PDDXDT_map diagnosis !! p)
     ↔ ∃ r, r ∈ diagnosis ∧ dx_PATNO r = p ∧ dx_EVENT_ID r = "SC"
            ∧ is_Some (dx_PDDXDT r)).
Proof.
  split; [apply PDDXDT_map_origin | apply PDDXDT_map_is_Some].
Qed.

End Mapping.

Lemma PDDXDT_map_last_wins_witness :
  PDDXDT_map
    ([mk_diagnosis 1 "SC" (Some "2014-02-01")]
       ++ mk_diagnosis 1 "SC" (Some "2015-01-10")
       :: [mk_diagnosis 1 "V04" (Some "2016-01-01");
           mk_diagnosis 2 "SC" (Some "2013-05-01")])
    !! 1
  = Some "2015-01-10".
Proof.
  apply (PDDXDT_map_last_wins
           [mk_diagnosis 1 "SC" (Some "2014-02-01")]
           [mk_diagnosis 1 "V04" (Some "2016-01-01");
            mk_diagnosis 2 "SC" (Some "2013-05-01")]
           (mk_diagnosis 1 "SC" (Some "2015-01-10")) "2015-01-10").
  - reflexivity.
  - reflexivity.
  - intros r' Hr' Hp. rewrite !elem_of_cons, elem_of_nil in Hr'.
    destruct Hr' as [->|[->|[]]]; [reflexivity | discriminate].
Defined.

Section ReturnedFrame.

Context (parse : string → option datetime).

Implicit Types (diagnosis : list diagnosis_row) (exam : list exam_row).
Implicit Types (e : exam_row) (f : frame).

Lemma abs_month_diff_nonneg (x y : datetime) (n : Z) :
  abs_month_diff x y = Some n → 0 <= n.
Proof.
  unfold abs_month_diff. destruct (relativedelta x y); simpl; [|done].
  intros [= <-]. lia.
Qed.

Lemma row_duration_nonneg (infodt pddxdt : option string) (n : Z) :
  row_duration parse infodt pddxdt = Some (Some n) → 0 <= n.
Proof.
  unfold row_duration. destruct pddxdt as [s|]; [|done].
  destruct (parse_cell parse infodt) as [x|]; simpl; [|done].
  destruct (parse s) as [y|]; simpl; [|done].
  destruct (abs_month_diff x y) as [m|] eqn:Hm; simpl; [|done].
  intros [= <-]. by eapply abs_month_diff_nonneg.
Qed.

Lemma row_duration_defined (infodt pddxdt : option string)
    (dur : option Z) :
  row_duration parse infodt pddxdt = Some dur →
  (is_Some dur ↔ is_Some pddxdt).
Proof.
  unfold row_duration. destruct pddxdt as [s|].
  - destruct (parse_cell parse infodt) as [x|]; simpl; [|done].
    destruct (parse s) as [y|]; simpl; [|done].
    destruct (abs_month_diff x y) as [m|]; simpl; [|done].
    intros [= <-]. split; eauto.
  - intros [= <-]. split; intros [? [=]].
Qed.

(** Every duration of the returned frame is a number of months from 0
    up. *)
Theorem disease_duration_nonneg diagnosis exam (minimal : bool) f
    (r : Z * string * option Z) (n : Z) :
  disease_duration parse diagnosis exam minimal = Some f →
  r ∈ frame_rows f → r.2 = Some n → 0 <= n.
Proof.
  intros Hf Hr Hn. apply disease_duration_rows in Hf.
  apply list_elem_of_lookup in Hr as [i Hi].
  destruct (Forall2_lookup_r _ _ _ _ _ Hf Hi) as (e & _ & dur & Hdur & ->).
  simpl in Hn. subst dur. by eapply row_duration_nonneg.
Qed.

(** A row of the returned frame has a duration exactly when the diagnosis
    table has a dated screening row for its patient. *)
Theorem disease_duration_defined_iff diagnosis exam (minimal : bool) f
    (i : nat) e (r : Z * string * option Z) :
  disease_duration parse diagnosis exam minimal = Some f →
  exam !! i = Some e → frame_rows f !! i = Some r →
  (is_Some r.2
   ↔ ∃ d, d ∈ diagnosis ∧ dx_PATNO d = ex_PATNO e
          ∧ dx_EVENT_ID d = "SC" ∧ is_Some (dx_PDDXDT d)).
Proof.
  intros Hf He Hr. apply disease_duration_rows in Hf.
  destruct (Forall2_lookup_l _ _ _ _ _ Hf He) as (r' & Hr' & dur & Hdur & ->).
  rewrite Hr in Hr'. injection Hr' as ->. simpl.
  rewrite (row_duration_defined _ _ _ Hdur). apply PDDXDT_map_is_Some.
Qed.

(** Rows of the diagnosis table that are not dated screening rows have no
    effect on the call, wherever they stand. *)
Theorem disease_duration_ignores_other_rows
    (before after : list diagnosis_row) (d : diagnosis_row) exam
    (minimal : bool) :
  is_screening d = false →
  disease_duration parse (before ++ d :: after) exam minimal
  = disease_duration parse (before ++ after) exam minimal.
Proof.
  intros Hd. unfold disease_duration, PDDXDT_map.
  rewrite !List.filter_app. simpl. by rewrite Hd.
Qed.

End ReturnedFrame.

Lemma disease_duration_nonneg_witness : 0 <= 12.
Proof.
  apply (disease_duration_nonneg parse_ymd sample_diagnosis sample_exam true
           (Minimal [(1, "BL", Some 1); (2, "BL", None); (3, "BL", None);
                     (1, "V04", Some 12)])
           (1, "V04", Some 12) 12).
  - vm_compute. reflexivity.
  - simpl. rewrite !elem_of_cons. tauto.
  - reflexivity.
Defined.

Lemma disease_duration_defined_iff_witness :
  is_Some (Some 1)
  ↔ ∃ d, d ∈ sample_diagnosis ∧ dx_PATNO d = 1
         ∧ dx_EVENT_ID d = "SC" ∧ is_Some (dx_PDDXDT d).
Proof.
  apply (disease_duration_defined_iff parse_ymd sample_diagnosis sample_exam
           true
           (Minimal [(1, "BL", Some 1); (2, "BL", None); (3, "BL", None);
                     (1, "V04", Some 12)])
           0%nat (mk_exam 1 "BL" (Some "2015-03-05")) (1, "BL", Some 1)).
  - vm_compute. reflexivity.
  - reflexivity.
  - reflexivity.
Defined.

Lemma disease_duration_ignores_other_rows_witness :
  disease_duration parse_ymd
    ([mk_diagnosis 1 "SC" (Some "2015-01-10")]
       ++ mk_diagnosis 1 "V04" (Some "2015-09-09")
       :: [mk_diagnosis 2 "SC" None])
    sample_exam true
  = disease_duration parse_ymd
      ([mk_diagnosis 1 "SC" (Some "2015-01-10")]
         ++ [mk_diagnosis 2 "SC" None])
      sample_exam true.
Proof.
  apply (disease_duration_ignores_other_rows parse_ymd
           [mk_diagnosis 1 "SC" (Some "2015-01-10")]
           [mk_diagnosis 2 "SC" None]
           (mk_diagnosis 1 "V04" (Some "2015-09-09")) sample_exam true).
  reflexivity.
Defined.

